(** * Palate-cleanser music app: accounts, sessions, tracks and favorites

    A shallow embedding of [src/app.js], [src/models/User.js] and
    [src/models/MusicTrack.js].  The three MongoDB collections are finite maps
    from document id to document, a route handler is a computation in a
    state-and-exception monad over the database and the request's session,
    and the calls the handlers make into mongoose, bcryptjs and
    express-session are functions named after them, with the meaning their
    libraries document.

    Not modelled: the views (a response is the view's name and the locals
    handed to it), the static files and the connection to the database
    (every call reaches it).  The routes come first, over the database
    alone; the seed list of [populateTracks] and the [expires] of the
    session store, with the clock it is read against, come after them. *)

From Stdlib Require Import ZArith String Ascii.
From stdpp Require Import ssreflect base option list gmap strings numbers.

Local Open Scope string_scope.

(** ** JavaScript strings

    A string of the program is a [string] here, one character per UTF-16
    code unit below 256, so [String.length] is JavaScript's [.length]. *)

(** [s.includes(sub)] *)
Fixpoint includes (s sub : string) : bool :=
  String.prefix sub s ||
  match s with
  | EmptyString => false
  | String _ s' => includes s' sub
  end.

(** The UTF-8 bytes of a string: one byte below 128, two from 128 to 255. *)
Fixpoint utf8 (s : string) : string :=
  match s with
  | EmptyString => EmptyString
  | String c s' =>
      let n := N_of_ascii c in
      if (n <? 128)%N then String c (utf8 s')
      else String (ascii_of_N (192 + n / 64))
             (String (ascii_of_N (128 + n mod 64)) (utf8 s'))
  end.

Definition hex_digit (n : N) : ascii :=
  ascii_of_N (if (n <? 10)%N then (48 + n)%N else (55 + n)%N).

(** The characters [encodeURIComponent] leaves as they are:
    [A-Z a-z 0-9 - _ . ! ~ * ' ( )]. *)
Definition uri_unreserved (c : ascii) : bool :=
  let n := N_of_ascii c in
  ((65 <=? n) && (n <=? 90) || (97 <=? n) && (n <=? 122)
   || (48 <=? n) && (n <=? 57)
   || bool_decide (n ∈ [45; 95; 46; 33; 126; 42; 39; 40; 41]))%N.

Fixpoint percent_encode (bytes : string) : string :=
  match bytes with
  | EmptyString => EmptyString
  | String c s' =>
      if uri_unreserved c then String c (percent_encode s')
      else
        let n := N_of_ascii c in
        String "%" (String (hex_digit (n / 16))
                      (String (hex_digit (n mod 16)) (percent_encode s')))
  end.

Definition encodeURIComponent (s : string) : string := percent_encode (utf8 s).

(** ** Documents *)

(** A MongoDB ObjectId, as the number its 12 bytes write. *)
Abbreviation ObjectId := N.

(** [UserSchema]: [username] (required, unique), [password] (required; the
    bcrypt hash once saved), [favorites] (an array of MusicTrack ids). *)
Record User := mkUser {
  username : string;
  password : string;
  favorites : list ObjectId;
}.

(** [MusicTrackSchema] *)
Record MusicTrack := mkMusicTrack {
  name : string;
  artist : string;
  genre : string;
  embedUrl : string;
  createdAt : Z;
}.

(** What [req.session] holds besides its cookie: [userId], set at login. *)
Record Session := mkSession {
  userId : option ObjectId;
}.

#[export] Instance Session_eq_dec : EqDecision Session.
Proof. solve_decision. Defined.

(** The database: the collections [users], [musictracks] and [sessions],
    each keyed by [_id]. *)
Record Db := mkDb {
  users : gmap ObjectId User;
  tracks : gmap ObjectId MusicTrack;
  sessions : gmap string Session;
}.

Definition set_users (f : gmap ObjectId User → gmap ObjectId User) (d : Db) : Db :=
  mkDb (f (users d)) (tracks d) (sessions d).
Definition set_tracks (f : gmap ObjectId MusicTrack → gmap ObjectId MusicTrack)
    (d : Db) : Db :=
  mkDb (users d) (f (tracks d)) (sessions d).
Definition set_sessions (f : gmap string Session → gmap string Session) (d : Db) : Db :=
  mkDb (users d) (tracks d) (f (sessions d)).

(** A document as a query returns it: its [_id] and its fields. *)
Abbreviation Doc A := (ObjectId * A)%type.

(** A user after [.populate('favorites')]: the ids that resolve are replaced
    by their tracks, the others are left out. *)
Record PopulatedUser := mkPopulated {
  pu_id : ObjectId;
  pu_doc : User;
  pu_favorites : list (Doc MusicTrack);
}.

(** ** The monad of a request

    A handler reads and writes the database and [req.session]; an [await]ed
    call may throw, and what was written before the throw stays written. *)

Inductive Error :=
| CastError          (* a string that is no ObjectId *)
| ValidationError    (* a required path is empty *)
| DuplicateKey       (* E11000: [err.code === 11000] *)
| TypeError          (* a property read off [undefined] or [null] *)
| IllegalArguments.  (* bcryptjs called with a non-string *)

Record State := mkState {
  db : Db;
  sessionID : string;         (* [req.sessionID] *)
  session : option Session;   (* [req.session]; [None] once destroyed *)
}.

Definition M (A : Type) : Type := State → (Error + A) * State.

#[export] Instance M_ret : MRet M := λ A a st, (inr a, st).
#[export] Instance M_bind : MBind M := λ A B k m st,
  match m st with
  | (inr a, st') => k a st'
  | (inl e, st') => (inl e, st')
  end.
Definition throw {A} (e : Error) : M A := λ st, (inl e, st).
(** [try { m } catch (err) { h err }] *)
Definition try_catch {A} (m : M A) (h : Error → M A) : M A :=
  λ st, match m st with
        | (inr a, st') => (inr a, st')
        | (inl e, st') => h e st'
        end.
Definition gets {A} (f : Db → A) : M A := λ st, (inr (f (db st)), st).
Definition modify (f : Db → Db) : M unit :=
  λ st, (inr tt, mkState (f (db st)) (sessionID st) (session st)).

(** What the runtime chooses while a request is served: the ObjectId of a
    document made with [new], the salt of [bcrypt.hash], the id of a new
    session, the draw of [$sample], and the clock behind [Date.now]. *)
Record Runtime := mkRuntime {
  newObjectId : ObjectId;
  genSalt : nat → string;
  genid : string;
  sampleDraw : nat;
  Date_now : Z;
}.

(** ** HTTP *)

Inductive Route :=
| GET_register | POST_register
| GET_login | POST_login
| POST_logout
| POST_add
| POST_delete (id : string)       (* [/delete/:id] *)
| GET_browse
| GET_root
| POST_favorite (id : string)     (* [/favorite/:id] *)
| POST_unfavorite (id : string)   (* [/unfavorite/:id] *)
| GET_favorites
| no_route.

(** A request: the route it matches with its [:id] parameter, the session
    cookie, and the fields of the form and of the query string, each a
    string when present. *)
Record Request := mkRequest {
  route : Route;
  cookie : option string;       (* the session id the client sends *)
  body : gmap string string;    (* [req.body]: the form's fields *)
  query : gmap string string;   (* [req.query] *)
}.

(** [res.render(view, locals)], [res.redirect(url)] and
    [res.status(code).send(text)]. *)
Inductive Response :=
| render_register (error : string)
| render_login (error : string)
| render_browse (tracks : list (Doc MusicTrack)) (user : option PopulatedUser)
| render_index (track : option (Doc MusicTrack)) (user : option (Doc User))
    (tracksCount : nat) (error : string)
| render_favorites (user : PopulatedUser) (tracks : list (Doc MusicTrack))
| redirect (url : string)
| send (status : nat) (text : string)
| unhandled (e : Error).          (* a rejection no handler caught *)

(** A value is falsy when it is [undefined] or the empty string. *)
Definition falsy (v : option string) : bool :=
  match v with
  | None => true
  | Some s => bool_decide (s = "")
  end.

(** [v || d] *)
Definition or_default (v : option string) (d : string) : string :=
  match v with
  | None => d
  | Some s => if bool_decide (s = "") then d else s
  end.

Section App.

(** Two functions of the libraries stay parameters: mongoose's cast of a
    string to an ObjectId ([None] when the string is not one), and bcrypt's
    expensive-key-schedule Blowfish, from the key bytes and the salt string
    to the 31 characters of the digest. *)
Context (castObjectId : string → option ObjectId).
Context (eksBlowfish : string → string → string).

(** ** bcryptjs *)

(** The key bcrypt reads: the UTF-8 bytes of the password and a closing
    zero byte, of which the key schedule takes the first 72. *)
Definition bcrypt_key (s : string) : string :=
  substring 0 72 (utf8 s +:+ String Ascii.zero EmptyString).

(** [hashSync(s, salt)] for a salt string of [genSalt]: the salt (version,
    cost and 22 characters, 29 in all) followed by the digest. *)
Definition bcrypt_hashSync (s salt : string) : string :=
  salt +:+ eksBlowfish (bcrypt_key s) salt.

(** [compareSync(s, hash)]: hash [s] with the salt the hash begins with and
    compare the two strings. *)
Definition bcrypt_compareSync (s hash : string) : bool :=
  if bool_decide (String.length hash = 60)
  then bool_decide (bcrypt_hashSync s (substring 0 (String.length hash - 31) hash) = hash)
  else false.

(** [bcrypt.compare(s, hash)] rejects when [s] is no string. *)
Definition bcrypt_compare (s : option string) (hash : string) : M bool :=
  match s with
  | Some s => mret (bcrypt_compareSync s hash)
  | None => throw IllegalArguments
  end.

(** ** models/User.js *)

(** [UserSchema.pre('save')]: hash the password when it was modified. *)
Definition UserSchema_pre_save (rt : Runtime) (isModified_password : bool)
    (this : User) : User :=
  if isModified_password
  then mkUser (username this)
         (bcrypt_hashSync (password this) (genSalt rt 10)) (favorites this)
  else this.

(** [UserSchema.methods.comparePassword] *)
Definition comparePassword (this : User) (candidatePassword : option string)
    : M bool :=
  bcrypt_compare candidatePassword (password this).

(** ** mongoose *)

(** The cast of a route parameter; a [CastError] is thrown on failure. *)
Definition cast (id : string) : M ObjectId :=
  match castObjectId id with
  | Some i => mret i
  | None => throw CastError
  end.

(** [await new User({ username, password }).save()]: validation of the
    required paths, then the pre-save hook (every path of a new document
    is modified), then the insert, which the unique indexes on [_id] and
    [username] refuse with E11000. *)
Definition User_save (rt : Runtime) (u p : string) : M ObjectId :=
  if bool_decide (u = "") || bool_decide (p = "") then throw ValidationError
  else
    let doc := UserSchema_pre_save rt true (mkUser u p []) in
    us ← gets users;
    if bool_decide (is_Some (us !! newObjectId rt)
                    ∨ map_Exists (λ _ x, username x = u) us)
    then throw DuplicateKey
    else modify (set_users (<[newObjectId rt := doc]>));; mret (newObjectId rt).

(** [User.findOne({ username })]; an [undefined] value matches no user. *)
Definition User_findOne (u : option string) : M (option (Doc User)) :=
  match u with
  | None => mret None
  | Some u =>
      us ← gets users;
      mret (snd <$> list_find (λ d, username d.2 = u) (map_to_list us))
  end.

(** [User.findById(id)] *)
Definition User_findById (id : ObjectId) : M (option (Doc User)) :=
  us ← gets users; mret ((id ,.) <$> us !! id).

(** [.populate('favorites')]: each id that resolves becomes its track. *)
Definition populate (ts : gmap ObjectId MusicTrack) (d : Doc User) : PopulatedUser :=
  mkPopulated d.1 d.2 (omap (λ i, (i ,.) <$> ts !! i) (favorites d.2)).

(** [User.findById(id).populate('favorites')] *)
Definition User_findById_populate (id : ObjectId) : M (option PopulatedUser) :=
  user ← User_findById id;
  ts ← gets tracks;
  mret (populate ts <$> user).

(** [$addToSet]: append unless present. *)
Definition addToSet (t : ObjectId) (u : User) : User :=
  mkUser (username u) (password u)
    (if bool_decide (t ∈ favorites u) then favorites u
     else (favorites u ++ [t])%list).

(** [$pull]: remove every occurrence. *)
Definition pull (t : ObjectId) (u : User) : User :=
  mkUser (username u) (password u) (filter (λ i, i ≠ t) (favorites u)).

(** [User.findByIdAndUpdate(userId, { $addToSet: { favorites: trackId } })] *)
Definition User_findByIdAndUpdate_addToSet (uid : ObjectId) (trackId : string)
    : M unit :=
  t ← cast trackId; modify (set_users (alter (addToSet t) uid)).

(** [User.findByIdAndUpdate(userId, { $pull: { favorites: trackId } })] *)
Definition User_findByIdAndUpdate_pull (uid : ObjectId) (trackId : string)
    : M unit :=
  t ← cast trackId; modify (set_users (alter (pull t) uid)).

(** [User.updateMany({}, { $pull: { favorites: trackId } })] *)
Definition User_updateMany_pull (trackId : string) : M unit :=
  t ← cast trackId; modify (set_users (fmap (pull t))).

(** [await new MusicTrack({...}).save()] *)
Definition MusicTrack_save (rt : Runtime) (n a g e : string) : M ObjectId :=
  if bool_decide (n = "") || bool_decide (e = "") then throw ValidationError
  else
    ts ← gets tracks;
    if bool_decide (is_Some (ts !! newObjectId rt)) then throw DuplicateKey
    else
      modify (set_tracks (<[newObjectId rt := mkMusicTrack n a g e (Date_now rt)]>));;
      mret (newObjectId rt).

(** [MusicTrack.findByIdAndDelete(trackId)]: the deleted document, or
    [null] when there is none. *)
Definition MusicTrack_findByIdAndDelete (trackId : string)
    : M (option MusicTrack) :=
  t ← cast trackId;
  ts ← gets tracks;
  modify (set_tracks (delete t));;
  mret (ts !! t).

(** [MusicTrack.find({})] *)
Definition MusicTrack_find : M (list (Doc MusicTrack)) :=
  ts ← gets tracks; mret (map_to_list ts).

(** [MusicTrack.countDocuments()] *)
Definition MusicTrack_countDocuments : M nat :=
  ts ← gets tracks; mret (size ts).

(** [MusicTrack.aggregate([{ $sample: { size: 1 } }])]: one document
    drawn from the collection, none when it is empty. *)
Definition MusicTrack_aggregate_sample1 (rt : Runtime) : M (list (Doc MusicTrack)) :=
  ts ← gets tracks;
  mret (option_list (map_to_list ts !! (sampleDraw rt `mod` size ts))).

(** ** express-session, as far as the handlers use it *)

(** [req.session.userId] *)
Definition session_userId : M (option ObjectId) :=
  λ st, match session st with
        | Some s => (inr (userId s), st)
        | None => (inl TypeError, st)
        end.

(** [req.session.userId = id] *)
Definition set_session_userId (id : ObjectId) : M unit :=
  λ st, match session st with
        | Some _ => (inr tt, mkState (db st) (sessionID st) (Some (mkSession (Some id))))
        | None => (inl TypeError, st)
        end.

(** [req.session.destroy(cb)]: the store forgets the session id and
    [req.session] is deleted. *)
Definition session_destroy : M unit :=
  λ st, (inr tt, mkState (set_sessions (delete (sessionID st)) (db st))
                   (sessionID st) None).

(** ** app.js: middleware and routes *)

Definition Handler : Type := Runtime → Request → M Response.

(** [isAuthenticated(req, res, next)] *)
Definition isAuthenticated (next : Handler) : Handler := λ rt req,
  uid ← session_userId;
  match uid with
  | Some _ => next rt req
  | None => mret (redirect "/login")
  end.

(** [app.get('/register')] *)
Definition get_register : Handler := λ rt req, mret (render_register "").

(** [app.post('/register')] *)
Definition post_register : Handler := λ rt req,
  try_catch
    (let username := body req !! "username" in
     let password := body req !! "password" in
     match username, password with
     | Some u, Some p =>
         if falsy username || falsy password || bool_decide (String.length p < 6)
         then mret (render_register
                "Username/Password cannot be empty or password too short.")
         else
           id ← User_save rt u p;
           set_session_userId id;;
           mret (redirect "/")
     | _, _ =>
         mret (render_register
           "Username/Password cannot be empty or password too short.")
     end)
    (λ err,
       let errorMsg :=
         match err with
         | DuplicateKey => "That username is already taken. Please try another."
         | _ => "An error occurred during registration."
         end in
       mret (render_register errorMsg)).

(** [app.get('/login')] *)
Definition get_login : Handler := λ rt req, mret (render_login "").

(** [app.post('/login')] *)
Definition post_login : Handler := λ rt req,
  try_catch
    (user ← User_findOne (body req !! "username");
     match user with
     | None => mret (render_login "Invalid username or password.")
     | Some d =>
         ok ← comparePassword d.2 (body req !! "password");
         if ok : bool
         then set_session_userId d.1;; mret (redirect "/")
         else mret (render_login "Invalid username or password.")
     end)
    (λ err, mret (send 500 "Server Error during login process.")).

(** [app.post('/logout')]: the store's [destroy] does not fail here, so the
    callback's [err] branch is not taken. *)
Definition post_logout : Handler := λ rt req,
  session_destroy;; mret (redirect "/login").

(** [app.post('/add', isAuthenticated, ...)] *)
Definition post_add : Handler := isAuthenticated (λ rt req,
  let name := body req !! "name" in
  let artist := body req !! "artist" in
  let genre := body req !! "genre" in
  let embedUrl := body req !! "embedUrl" in
  try_catch
    (match name with
     | Some n =>
         if falsy name
         then mret (redirect ("/?error=" +:+ encodeURIComponent
                "Invalid track details: Name is required, and URL must be a YouTube embed link."))
         else
           match embedUrl with
           | None => throw TypeError       (* [undefined.includes] *)
           | Some e =>
               if negb (includes e "youtube.com/embed/")
               then mret (redirect ("/?error=" +:+ encodeURIComponent
                      "Invalid track details: Name is required, and URL must be a YouTube embed link."))
               else
                 MusicTrack_save rt n
                   (or_default artist "User Contributed")
                   (or_default genre "Unknown Palate Cleanser") e;;
                 mret (redirect "/")
           end
     | None =>
         mret (redirect ("/?error=" +:+ encodeURIComponent
           "Invalid track details: Name is required, and URL must be a YouTube embed link."))
     end)
    (λ err, mret (send 500 "Error adding track. Check server logs."))).

(** [app.post('/delete/:id', isAuthenticated, ...)] *)
Definition post_delete (id : string) : Handler := isAuthenticated (λ rt req,
  try_catch
    (let trackId := id in
     MusicTrack_findByIdAndDelete trackId;;
     User_updateMany_pull trackId;;
     mret (redirect "/browse"))
    (λ err, mret (send 500 "Error processing deletion."))).

(** [app.get('/browse')] *)
Definition get_browse : Handler := λ rt req,
  try_catch
    (tracks ← MusicTrack_find;
     uid ← session_userId;
     user ← match uid with
            | Some i => User_findById_populate i
            | None => mret None
            end;
     mret (render_browse tracks user))
    (λ err, mret (send 500 "Error loading track list.")).

(** [app.get('/')] *)
Definition get_root : Handler := λ rt req,
  let error := or_default (query req !! "error") "" in
  r ← try_catch
        (tracksCount ← MusicTrack_countDocuments;
         randomTrack ← MusicTrack_aggregate_sample1 rt;
         let track := head randomTrack in
         uid ← session_userId;
         user ← match uid with
                | Some i => User_findById i
                | None => mret None
                end;
         mret (track, user, tracksCount, error))
        (λ err, mret (None, None, 0,
           if bool_decide (error = "")
           then "Database error: Could not fetch tracks." else error));
  let '(track, user, tracksCount, error) := r in
  mret (render_index track user tracksCount error).

(** [app.post('/favorite/:id', isAuthenticated, ...)] *)
Definition post_favorite (id : string) : Handler := isAuthenticated (λ rt req,
  try_catch
    (let trackId := id in
     userId ← session_userId;
     match userId with
     | Some uid => User_findByIdAndUpdate_addToSet uid trackId
     | None => mret tt
     end;;
     mret (redirect "/favorites"))
    (λ err, mret (send 500 "Error saving favorite."))).

(** [app.post('/unfavorite/:id', isAuthenticated, ...)] *)
Definition post_unfavorite (id : string) : Handler := isAuthenticated (λ rt req,
  try_catch
    (let trackId := id in
     userId ← session_userId;
     match userId with
     | Some uid => User_findByIdAndUpdate_pull uid trackId
     | None => mret tt
     end;;
     mret (redirect "/favorites"))
    (λ err, mret (send 500 "Error removing favorite."))).

(** [app.get('/favorites', isAuthenticated, ...)] *)
Definition get_favorites : Handler := isAuthenticated (λ rt req,
  try_catch
    (uid ← session_userId;
     user ← match uid with
            | Some i => User_findById_populate i
            | None => mret None
            end;
     match user with
     | Some u => mret (render_favorites u (pu_favorites u))
     | None => throw TypeError          (* [null.favorites] *)
     end)
    (λ err, mret (send 500 "Error fetching favorites."))).

(** The 404 handler, last in the chain. *)
Definition not_found : Handler := λ rt req, mret (send 404 "404 Not Found").

Definition router (r : Route) : Handler :=
  match r with
  | GET_register => get_register
  | POST_register => post_register
  | GET_login => get_login
  | POST_login => post_login
  | POST_logout => post_logout
  | POST_add => post_add
  | POST_delete id => post_delete id
  | GET_browse => get_browse
  | GET_root => get_root
  | POST_favorite id => post_favorite id
  | POST_unfavorite id => post_unfavorite id
  | GET_favorites => get_favorites
  | no_route => not_found
  end.

(** The session middleware before the routes: the session of the request's
    cookie when the store has it, a new empty one otherwise. *)
Definition session_load (d : Db) (rt : Runtime) (req : Request) : string * Session :=
  match cookie req with
  | Some sid =>
      match sessions d !! sid with
      | Some s => (sid, s)
      | None => (genid rt, mkSession None)
      end
  | None => (genid rt, mkSession None)
  end.

(** ... and after them ([resave] and [saveUninitialized] are false): a
    session is written to the store when the handler changed it. *)
Definition session_commit (loaded : Session) (st : State) : Db :=
  match session st with
  | Some s =>
      if bool_decide (s = loaded) then db st
      else set_sessions (<[sessionID st := s]>) (db st)
  | None => db st
  end.

(** One request, from the database before it to the database after it and
    the response. *)
Definition app (rt : Runtime) (d : Db) (req : Request) : Db * Response :=
  let (sid, s) := session_load d rt req in
  let (r, st) := router (route req) rt req (mkState d sid (Some s)) in
  (session_commit s st,
   match r with
   | inr res => res
   | inl e => unhandled e
   end).

End App.

(** ** What a client observes *)

(** The user the session middleware attaches to a request that carries the
    cookie [token]: the [req.session.userId] that [isAuthenticated] reads. *)
Definition resolve (d : Db) (token : option string) : option ObjectId :=
  sid ← token; s ← sessions d !! sid; userId s.

(** The tracks [GET /favorites] lists for a user. *)
Definition listed (d : Db) (uid : ObjectId) : list (Doc MusicTrack) :=
  match users d !! uid with
  | Some u => pu_favorites (populate (tracks d) (uid, u))
  | None => []
  end.

(** How often a track is among documents. *)
Definition occurrences (t : ObjectId) (l : list (Doc MusicTrack)) : nat :=
  length (filter (λ x, x.1 = t) l).

(** ** Invariants of the database *)

(** [favorites] holds no id twice. *)
Definition favorites_are_sets (d : Db) : Prop :=
  ∀ uid u, users d !! uid = Some u → NoDup (favorites u).

(** No two users share a [username]. *)
Definition usernames_unique (d : Db) : Prop :=
  ∀ i j u v, users d !! i = Some u → users d !! j = Some v →
    username u = username v → i = j.

(** A session's [userId] is the id of a user. *)
Definition sessions_of_users (d : Db) : Prop :=
  ∀ sid s uid, sessions d !! sid = Some s → userId s = Some uid →
    is_Some (users d !! uid).

(** The databases the application reaches: it starts without users and
    sessions, serves requests, and on a restart replaces the tracks by the
    seed list. *)
Inductive reachable (castObjectId : string → option ObjectId)
    (eksBlowfish : string → string → string) : Db → Prop :=
| reachable_start ts : reachable castObjectId eksBlowfish (mkDb ∅ ts ∅)
| reachable_request rt d req :
    reachable castObjectId eksBlowfish d →
    reachable castObjectId eksBlowfish (app castObjectId eksBlowfish rt d req).1
| reachable_restart d ts :
    reachable castObjectId eksBlowfish d →
    reachable castObjectId eksBlowfish (set_tracks (λ _, ts) d).

(** What one request does to the users. *)
Inductive users_change (us : gmap ObjectId User) : gmap ObjectId User → Prop :=
| users_same : users_change us us
| users_insert i u p :
    us !! i = None → (∀ j x, us !! j = Some x → username x ≠ u) →
    users_change us (<[i := mkUser u p []]> us)
| users_addToSet t i : users_change us (alter (addToSet t) i us)
| users_pull t i : users_change us (alter (pull t) i us)
| users_pull_all t : users_change us (pull t <$> us).

(** What one request does to the sessions, [us'] being the users after it. *)
Inductive sessions_change (us' : gmap ObjectId User) (ss : gmap string Session)
    : gmap string Session → Prop :=
| sessions_same : sessions_change us' ss ss
| sessions_destroy sid : sessions_change us' ss (delete sid ss)
| sessions_login sid uid :
    is_Some (us' !! uid) →
    sessions_change us' ss (<[sid := mkSession (Some uid)]> ss).

(** The routes behind [isAuthenticated]. *)
Definition protected (r : Route) : bool :=
  match r with
  | POST_add | POST_delete _ | POST_favorite _ | POST_unfavorite _
  | GET_favorites => true
  | _ => false
  end.


(** ** An instance of the two parameters, for running the model *)

Definition hex_value (c : ascii) : option N :=
  let n := N_of_ascii c in
  if ((48 <=? n) && (n <=? 57))%N then Some (n - 48)%N
  else if ((97 <=? n) && (n <=? 102))%N then Some (n - 87)%N
  else if ((65 <=? n) && (n <=? 70))%N then Some (n - 55)%N
  else None.

Fixpoint hex_number (acc : N) (s : string) : option N :=
  match s with
  | EmptyString => Some acc
  | String c s' =>
      match hex_value c with
      | Some d => hex_number (16 * acc + d)%N s'
      | None => None
      end
  end.

(** The ObjectId a string of 24 hexadecimal digits writes. *)
Definition hexObjectId (s : string) : option ObjectId :=
  if bool_decide (String.length s = 24) then hex_number 0 s else None.

Fixpoint hex_digits (n : nat) (x : N) : string :=
  match n with
  | O => EmptyString
  | S n' => String (hex_digit (x mod 16)) (hex_digits n' (x / 16))
  end.

Fixpoint checksum (acc : N) (s : string) : N :=
  match s with
  | EmptyString => acc
  | String c s' => checksum ((acc * 257 + N_of_ascii c) mod 2 ^ 124)%N s'
  end.

(** A stand-in for the Blowfish digest: 31 characters from a checksum of
    every byte of the key and the salt. *)
Definition toyBlowfish (key salt : string) : string :=
  hex_digits 31 (checksum 0 (key +:+ salt)).

Definition toySalt : string := "$2a$10$abcdefghijklmnopqrstuv".

Definition toyRuntime (oid : ObjectId) (sid : string) : Runtime :=
  mkRuntime oid (λ _, toySalt) sid 0 0.

Definition emptyDb : Db := mkDb ∅ ∅ ∅.

(** ** Examples: a database with two users, two tracks and two sessions *)

Definition track1_id : string := "000000000000000000000001".
Definition track3_id : string := "000000000000000000000003".

Definition exampleTracks : gmap ObjectId MusicTrack :=
  <[1%N := mkMusicTrack "Heavy Rain on Tin Roof" "Nature Sounds" "White Noise"
             "https://www.youtube.com/embed/q76bMAP1Xqg" 0]>
    (<[2%N := mkMusicTrack "French Jazz Cafe" "Bistro Background"
                "Lo-Fi Instrumental"
                "https://www.youtube.com/embed/m6lH_S_z-xM" 0]> ∅).

Definition alice : User :=
  mkUser "alice" (bcrypt_hashSync toyBlowfish "password1" toySalt) [1%N; 2%N].
Definition bob : User :=
  mkUser "bob" (bcrypt_hashSync toyBlowfish "hunter22" toySalt) [1%N].

Definition exampleDb : Db :=
  mkDb (<[10%N := alice]> (<[11%N := bob]> ∅))
       exampleTracks
       (<["sidA" := mkSession (Some 10%N)]>
          (<["sidB" := mkSession (Some 11%N)]> ∅)).

(** Requests of alice's browser. *)
Definition alice_request (r : Route) (form : gmap string string) : Request :=
  mkRequest r (Some "sidA") form ∅.

(** A request of a client without a cookie. *)
Definition anonymous_request (r : Route) (form : gmap string string) : Request :=
  mkRequest r None form ∅.

Definition exampleRuntime : Runtime := toyRuntime 12 "sidC".

Definition register_form (u p : string) : gmap string string :=
  <["username" := u]> (<["password" := p]> ∅).

(** Two passwords of 73 characters that differ in the last one. *)
Definition seventy_two : string :=
  "aaaaaaaaaaaaaaaaaaaaaaaaaaaaaaaaaaaaaaaaaaaaaaaaaaaaaaaaaaaaaaaaaaaaaaaa".
Definition long_password : string := seventy_two +:+ "b".
Definition other_long_password : string := seventy_two +:+ "c".

Definition track2_id : string := "000000000000000000000002".

Definition bob_request (r : Route) (form : gmap string string) : Request :=
  mkRequest r (Some "sidB") form ∅.

(** The example database after alice deleted track 1. *)
Definition afterDelete : Db :=
  (app hexObjectId toyBlowfish exampleRuntime exampleDb
     (alice_request (POST_delete track1_id) ∅)).1.

(** ... after carol registered, *)
Definition afterRegister : Db :=
  (app hexObjectId toyBlowfish exampleRuntime exampleDb
     (anonymous_request POST_register (register_form "carol" "password1"))).1.

(** ... and an empty database after a registration with the long password. *)
Definition afterLongRegister : Db :=
  (app hexObjectId toyBlowfish exampleRuntime emptyDb
     (anonymous_request POST_register (register_form "dave" long_password))).1.

(** A database without tracks. *)
Definition noTracksDb : Db := set_tracks (λ _, ∅) exampleDb.

(** The scenario of one client, the session id "sidC" being the one it is
    given and keeps: register, log out, log in, add a favorite. *)
Definition newcomer (r : Route) (form : gmap string string) : Request :=
  mkRequest r (Some "sidC") form ∅.

Definition scenario (form : gmap string string) (steps : list Route) : Db :=
  foldl (λ d r, (app hexObjectId toyBlowfish exampleRuntime d (newcomer r form)).1)
    exampleDb steps.

(** ** app.js: the seed tracks of a start *)

(** What the runtime chooses at a start: the ObjectId of the [k]-th seed
    document and the clock when it is made. *)
Record Boot := mkBoot {
  bootObjectId : nat → ObjectId;
  bootNow : nat → Z;
}.

(** The list handed to [insertMany]. *)
Definition seedTracks : list (string * string * string * string) :=
  [ ("Tibetan Bowl Resonances", "Calm Sounds", "Ambient Drone",
     "https://www.youtube.com/embed/PjE2qf6F3F4");
    ("Heavy Rain on Tin Roof", "Nature Sounds", "White Noise",
     "https://www.youtube.com/embed/q76bMAP1Xqg");
    ("Symphony No. 5 (First Movement)", "Classical Archive",
     "Unexpected Classical", "https://www.youtube.com/embed/j_8CAgq7v0M");
    ("1980s Game Menu Music", "Retro Arcade", "Chiptune",
     "https://www.youtube.com/embed/S_7gN8P5b9E");
    ("French Jazz Cafe", "Bistro Background", "Lo-Fi Instrumental",
     "https://www.youtube.com/embed/m6lH_S_z-xM") ].

(** The documents mongoose makes of them: an [_id] and [createdAt] each. *)
Definition seedDocuments (b : Boot) : list (Doc MusicTrack) :=
  imap (λ k s, (bootObjectId b k,
                mkMusicTrack s.1.1.1 s.1.1.2 s.1.2 s.2 (bootNow b k)))
    seedTracks.

(** [MusicTrack.deleteMany({})] *)
Definition MusicTrack_deleteMany : M unit := modify (set_tracks (λ _, ∅)).

(** The driver's ordered insert: one document after the other, until one
    meets the unique index on [_id]. *)
Fixpoint insert_ordered (docs : list (Doc MusicTrack)) : M unit :=
  match docs with
  | [] => mret tt
  | d :: docs' =>
      ts ← gets tracks;
      if bool_decide (is_Some (ts !! d.1)) then throw DuplicateKey
      else modify (set_tracks (<[d.1 := d.2]>));; insert_ordered docs'
  end.

(** [MusicTrack.insertMany(docs)]: every document is validated before any
    is written. *)
Definition MusicTrack_insertMany (docs : list (Doc MusicTrack)) : M unit :=
  if forallb (λ d, negb (bool_decide (name d.2 = ""))
                   && negb (bool_decide (embedUrl d.2 = ""))) docs
  then insert_ordered docs
  else throw ValidationError.

(** [populateTracks()] *)
Definition populateTracks (b : Boot) : M unit :=
  try_catch
    (MusicTrack_deleteMany;;
     count ← MusicTrack_countDocuments;
     if bool_decide (count = 0)
     then MusicTrack_insertMany (seedDocuments b)
     else mret tt)
    (λ err, mret tt).

(** A start of the application, no request being served meanwhile: the
    database after [populateTracks]. *)
Definition start (b : Boot) (d : Db) : Db :=
  db (populateTracks b (mkState d "" None)).2.

(** The database after a list of requests, each with what the runtime
    chooses while it is served. *)
Definition serve (castObjectId : string → option ObjectId)
    (eksBlowfish : string → string → string) (d : Db)
    (reqs : list (Runtime * Request)) : Db :=
  foldl (λ d x, (app castObjectId eksBlowfish x.1 d x.2).1) d reqs.


(** A track that [POST /add] accepts and that the schema's required paths
    allow: a name, and an [embedUrl] with [youtube.com/embed/] in it. *)
Definition embeddable (t : MusicTrack) : Prop :=
  name t ≠ "" ∧ includes (embedUrl t) "youtube.com/embed/" = true.

(** More examples: the database of a first start, the one after carol
    registered in it, and the runtime of a start. *)
Definition exampleBoot : Boot := mkBoot (λ k, (100 + N.of_nat k)%N) (λ _, 0%Z).

Definition startedDb : Db := start exampleBoot emptyDb.

Definition carolDb : Db :=
  (app hexObjectId toyBlowfish exampleRuntime startedDb
     (anonymous_request POST_register (register_form "carol" "password1"))).1.

Definition carol_request (r : Route) (form : gmap string string) : Request :=
  mkRequest r (Some "sidC") form ∅.

Definition add_form (n e : string) : gmap string string :=
  <["name" := n]> (<["embedUrl" := e]> ∅).

(** ** app.js: the lifetime of a session *)

(** [cookie: { maxAge: 1000 * 60 * 60 * 24 }], in milliseconds. *)
Definition maxAge : Z := 1000 * 60 * 60 * 24.

(** Hours on the clock of [Date.now], which counts milliseconds. *)
Definition hours (n : Z) : Z := (n * (1000 * 60 * 60))%Z.

(** The [sessions] collection as connect-mongo keeps it: beside what
    [req.session] holds, a document has the date [expires] of the session's
    cookie.  The handlers never read it, so it is kept beside the
    database they see. *)
Record Store := mkStore {
  documents : Db;
  expires : gmap string Z;
}.

(** The query of [store.get] asks for [expires] after the clock (or no
    [expires] at all). *)
Definition live (now : Z) (e : gmap string Z) (sid : string) : bool :=
  match e !! sid with
  | Some t => bool_decide (now < t)%Z
  | None => true
  end.

(** What is left of the collection at [now]: a document whose [expires]
    has passed is not found by [store.get], and the TTL index on
    [expires] removes it. *)
Definition unexpired (now : Z) (s : Store) : Store :=
  mkStore
    (set_sessions (filter (λ kv, live now (expires s) kv.1 = true))
       (documents s))
    (filter (λ kv, (now < kv.2)%Z) (expires s)).

(** The user the session middleware attaches at [now] to a request that
    carries the cookie [token]. *)
Definition resolve_at (now : Z) (s : Store) (token : option string)
    : option ObjectId :=
  resolve (documents (unexpired now s)) token.

(** Whether the store had the session of the request's cookie. *)
Definition session_found (d : Db) (req : Request) : bool :=
  match cookie req with
  | Some sid => bool_decide (is_Some (sessions d !! sid))
  | None => false
  end.

(** [expires] when the response ends.  [req.session.touch()] sets the
    cookie's [expires] to the clock plus [maxAge]; [store.set] writes it
    with a session the handler changed, [store.touch] writes it for an
    unchanged session that came from the store; a new session that was not
    changed is not stored, and [destroy] removed the document. *)
Definition session_expiry (now : Z) (found : bool) (loaded : Session)
    (st : State) (e : gmap string Z) : gmap string Z :=
  match session st with
  | Some s =>
      if bool_decide (s = loaded) && negb found then e
      else <[sessionID st := (now + maxAge)%Z]> e
  | None => delete (sessionID st) e
  end.

Section Lifetime.
Context (castObjectId : string → option ObjectId).
Context (eksBlowfish : string → string → string).

(** One request with the clock of the session store: [app] on the
    documents that have not expired, and the new [expires] of the
    request's session. *)
Definition app_with_expiry (rt : Runtime) (s : Store) (req : Request)
    : Store * Response :=
  let s0 := unexpired (Date_now rt) s in
  let (sid, loaded) := session_load (documents s0) rt req in
  let (r, st) :=
    router castObjectId eksBlowfish (route req) rt req
      (mkState (documents s0) sid (Some loaded)) in
  (mkStore (session_commit loaded st)
     (session_expiry (Date_now rt) (session_found (documents s0) req)
        loaded st (expires s0)),
   match r with
   | inr res => res
   | inl e => unhandled e
   end).

End Lifetime.

(** The clock of a request. *)
Definition at_time (t : Z) (rt : Runtime) : Runtime :=
  mkRuntime (newObjectId rt) (genSalt rt) (genid rt) (sampleDraw rt) t.

(** The example database with no [expires] yet, and the store after carol
    registered at time 0. *)
Definition exampleStore : Store := mkStore exampleDb ∅.

Definition carolStore : Store :=
  (app_with_expiry hexObjectId toyBlowfish (at_time 0 exampleRuntime)
     exampleStore
     (anonymous_request POST_register (register_form "carol" "password1"))).1.

(** ... and after her browser asked for [/] 23 hours later. *)
Definition carolStore23 : Store :=
  (app_with_expiry hexObjectId toyBlowfish (at_time (hours 23) exampleRuntime)
     carolStore (newcomer GET_root ∅)).1.

(** * Properties *)

Create HintDb run discriminated.
#[local] Hint Unfold mbind M_bind mret M_ret throw try_catch gets modify
  cast session_userId set_session_userId session_destroy
  User_findByIdAndUpdate_pull User_findByIdAndUpdate_addToSet User_updateMany_pull
  User_findById User_findById_populate User_findOne User_save
  MusicTrack_save MusicTrack_findByIdAndDelete MusicTrack_find
  MusicTrack_countDocuments MusicTrack_aggregate_sample1
  comparePassword bcrypt_compare
  isAuthenticated get_register post_register get_login post_login post_logout
  post_add post_delete get_browse get_root post_favorite post_unfavorite
  get_favorites not_found : run.

(** Unfold the handler and the monad, and compute. *)
Ltac run := autounfold with run; simpl.

(** ** Lists of favorites *)

Lemma pull_absent t u : t ∉ favorites u → pull t u = u.
Proof.
  destruct u as [n p favs]; rw /pull /=; intros Hnot; f_equal.
  induction favs as [|i favs IH]; first done.
  apply not_elem_of_cons in Hnot as [Hne Hnot].
  rw filter_cons decide_True; last done. by rw IH.
Qed.

Lemma pull_removes t u : t ∉ favorites (pull t u).
Proof. rw /pull /= list_elem_of_filter. by intros [? _]. Qed.

Lemma addToSet_adds t u : t ∈ favorites (addToSet t u).
Proof.
  rw /addToSet /=. case_bool_decide; first done.
  apply elem_of_app; right. by apply list_elem_of_singleton.
Qed.

Lemma addToSet_present t u : t ∈ favorites u → addToSet t u = u.
Proof.
  intros Hin. destruct u as [n p favs]. rw /addToSet /=.
  by rw bool_decide_true.
Qed.

Lemma addToSet_idempotent t u : addToSet t (addToSet t u) = addToSet t u.
Proof. apply addToSet_present, addToSet_adds. Qed.

Lemma addToSet_NoDup t u : NoDup (favorites u) → NoDup (favorites (addToSet t u)).
Proof.
  intros Hnd. rw /addToSet /=. case_bool_decide as Hin; first done.
  apply list.NoDup_app. split_and!; [done| |apply NoDup_singleton].
  intros x Hx ->%list_elem_of_singleton. done.
Qed.

Lemma pull_NoDup t u : NoDup (favorites u) → NoDup (favorites (pull t u)).
Proof. intros Hnd. rw /pull /=. by apply list.NoDup_filter. Qed.

(** A populated list holds a track as often as the array holds its id,
    and not at all when the id resolves to no track. *)
Lemma occurrences_populate (ts : gmap ObjectId MusicTrack) t
    (favs : list ObjectId) :
  occurrences t (omap (λ i, (i ,.) <$> ts !! i) favs)
  = match ts !! t with
    | Some _ => length (filter (λ i, i = t) favs)
    | None => 0
    end.
Proof.
  rw /occurrences. induction favs as [|i favs IH]; simpl.
  - by destruct (ts !! t).
  - rw filter_cons. destruct (ts !! i) as [trk|] eqn:Hi; simpl.
    + rw filter_cons /=. case_decide as Heq.
      * subst i. rw Hi /= IH Hi. done.
      * rw IH. done.
    + case_decide as Heq; last done.
      subst i. rw Hi in IH. rw Hi. done.
Qed.

Lemma filter_eq_absent (t : ObjectId) favs :
  t ∉ favs → filter (λ i, i = t) favs = [].
Proof.
  induction favs as [|i favs IH]; first done.
  intros [Hne Hni]%not_elem_of_cons.
  rw filter_cons decide_False; [by apply IH|by intros ->].
Qed.

Lemma NoDup_count (t : ObjectId) favs :
  NoDup favs → t ∈ favs → length (filter (λ i, i = t) favs) = 1.
Proof.
  induction 1 as [|i favs Hni Hnd IH]; first by intros ?%elem_of_nil.
  intros [->|Hin]%elem_of_cons; rw filter_cons.
  - rw decide_True; last done. by rw filter_eq_absent.
  - rw decide_False; [by apply IH|by intros ->].
Qed.

Lemma populate_not_listed (ts : gmap ObjectId MusicTrack) t trk
    (favs : list ObjectId) :
  ts !! t = None ∨ t ∉ favs → (t, trk) ∉ omap (λ i, (i ,.) <$> ts !! i) favs.
Proof.
  intros Hor (i & Hi & Heq)%list_elem_of_omap.
  destruct (ts !! i) as [x|] eqn:Hx; last done.
  simpl in Heq. injection Heq as -> ->.
  destruct Hor as [Hn|Hn]; [congruence|done].
Qed.

(** ** The session middleware *)

Lemma resolve_Some d token uid :
  resolve d token = Some uid ↔
  ∃ sid, token = Some sid ∧ sessions d !! sid = Some (mkSession (Some uid)).
Proof.
  rw /resolve. split.
  - destruct token as [sid|]; last done. simpl.
    destruct (sessions d !! sid) as [[o]|] eqn:Hs; last done.
    simpl. intros ->. eauto.
  - intros (sid & -> & Hs). by rw /= Hs.
Qed.

Lemma session_commit_same s d sid :
  session_commit s (mkState d sid (Some s)) = d.
Proof. by rw /session_commit /= bool_decide_true. Qed.

Section Properties.
Context (castObjectId : string → option ObjectId).
Context (eksBlowfish : string → string → string).

Lemma alter_pull_absent (us : gmap ObjectId User) uid t :
  (∀ u, us !! uid = Some u → t ∉ favorites u) → alter (pull t) uid us = us.
Proof.
  intros Habs. apply map_eq; intros i. rw lookup_alter.
  case_decide as Hi; last done. subst i.
  destruct (us !! uid) as [u|] eqn:Hu; last done.
  simpl. rw pull_absent; [done|exact (Habs u eq_refl)].
Qed.

(** [POST /unfavorite/:id] of a logged-in user *)
Lemma post_unfavorite_spec rt d req id t uid :
  route req = POST_unfavorite id →
  resolve d (cookie req) = Some uid →
  castObjectId id = Some t →
  app castObjectId eksBlowfish rt d req
  = (set_users (alter (pull t) uid) d, redirect "/favorites").
Proof.
  intros Hr (sid & Hc & Hs)%resolve_Some Hcast.
  rw /app /session_load Hc Hs Hr /=. run. rw Hcast /=.
  by rw session_commit_same.
Qed.

(** C5. Removing a track that is not among the user's favorites is a
    no-op: for a logged-in user [uid] and a well-formed id [t] that
    [uid]'s favorites do not hold, [POST /unfavorite/t] answers with the
    redirect to [/favorites], as every successful removal does, and leaves
    the database as it was, and so what [uid] is listed. *)
Theorem unfavorite_absent_noop rt d req id t uid :
  route req = POST_unfavorite id →
  resolve d (cookie req) = Some uid →
  castObjectId id = Some t →
  (∀ u, users d !! uid = Some u → t ∉ favorites u) →
  ∃ d', app castObjectId eksBlowfish rt d req = (d', redirect "/favorites")
        ∧ d' = d ∧ listed d' uid = listed d uid.
Proof.
  intros Hr Hres Hcast Habs. eexists; split.
  - by eapply post_unfavorite_spec.
  - assert (set_users (alter (pull t) uid) d = d) as ->; last done.
    rw /set_users alter_pull_absent; [by destruct d|done].
Qed.

(** [POST /favorite/:id] of a logged-in user *)
Lemma post_favorite_spec rt d req id t uid :
  route req = POST_favorite id →
  resolve d (cookie req) = Some uid →
  castObjectId id = Some t →
  app castObjectId eksBlowfish rt d req
  = (set_users (alter (addToSet t) uid) d, redirect "/favorites").
Proof.
  intros Hr (sid & Hc & Hs)%resolve_Some Hcast.
  rw /app /session_load Hc Hs Hr /=. run. rw Hcast /=.
  by rw session_commit_same.
Qed.

(** [GET /favorites] of a logged-in user that exists *)
Lemma get_favorites_spec rt d req uid u :
  route req = GET_favorites →
  resolve d (cookie req) = Some uid →
  users d !! uid = Some u →
  app castObjectId eksBlowfish rt d req
  = (d, render_favorites (populate (tracks d) (uid, u)) (listed d uid)).
Proof.
  intros Hr (sid & Hc & Hs)%resolve_Some Hu.
  rw /app /session_load Hc Hs Hr /=. run. rw /listed Hu /=.
  by rw session_commit_same.
Qed.

(** [GET /browse] hands the view every track of the collection. *)
Lemma get_browse_spec rt d req :
  route req = GET_browse →
  ∃ user, app castObjectId eksBlowfish rt d req
          = (d, render_browse (map_to_list (tracks d)) user).
Proof.
  intros Hr. rw /app Hr /=.
  destruct (session_load d rt req) as [sid [[uid|]]]; run.
  all: eexists; by rw session_commit_same.
Qed.

(** [POST /delete/:id] of a logged-in user *)
Lemma post_delete_spec rt d req id t uid :
  route req = POST_delete id →
  resolve d (cookie req) = Some uid →
  castObjectId id = Some t →
  app castObjectId eksBlowfish rt d req
  = (mkDb (pull t <$> users d) (delete t (tracks d)) (sessions d),
     redirect "/browse").
Proof.
  intros Hr (sid & Hc & Hs)%resolve_Some Hcast.
  rw /app /session_load Hc Hs Hr /=. run. rw Hcast /=.
  by rw session_commit_same.
Qed.

(** [POST /delete/:id] answers with the redirect to [/browse] only when
    the client is logged in and the id is well-formed. *)
Lemma post_delete_redirect_inv rt d req id d' :
  route req = POST_delete id →
  app castObjectId eksBlowfish rt d req = (d', redirect "/browse") →
  ∃ t uid, resolve d (cookie req) = Some uid ∧ castObjectId id = Some t.
Proof.
  intros Hr. destruct (resolve d (cookie req)) as [uid|] eqn:Hres.
  - destruct (castObjectId id) as [t|] eqn:Hcast; first by eauto.
    apply resolve_Some in Hres as (sid & Hc & Hs).
    rw /app /session_load Hc Hs Hr /=. run. by rw Hcast /=.
  - rw /app Hr /=. intros Happ. exfalso. revert Happ.
    assert (userId (session_load d rt req).2 = None) as Hnone.
    { rw /session_load. rw /resolve in Hres.
      destruct (cookie req) as [sid|]; last done. simpl in Hres.
      destruct (sessions d !! sid) as [s|]; last done. done. }
    destruct (session_load d rt req) as [sid [o]]. simpl in Hnone. subst o.
    run. done.
Qed.

(** C1. Deleting a track cascades into the favorites of every user: when
    [POST /delete/:id] succeeds (it answers with the redirect to
    [/browse]), the id is a well-formed track id [t], no track with id [t]
    is left in the collection ([findAll]), no user's [favorites] holds [t],
    and no user is listed a track with id [t]. *)
Theorem delete_cascades rt d req id d' :
  route req = POST_delete id →
  app castObjectId eksBlowfish rt d req = (d', redirect "/browse") →
  ∃ t, castObjectId id = Some t
    ∧ tracks d' !! t = None
    ∧ (∀ trk, (t, trk) ∉ map_to_list (tracks d'))
    ∧ (∀ uid u, users d' !! uid = Some u → t ∉ favorites u)
    ∧ (∀ uid trk, (t, trk) ∉ listed d' uid).
Proof.
  intros Hr Happ.
  destruct (post_delete_redirect_inv _ _ _ _ _ Hr Happ) as (t & uid & Hres & Hcast).
  rw (post_delete_spec rt d req id t uid Hr Hres Hcast) in Happ.
  injection Happ as <-. exists t. simpl. split_and!.
  - done.
  - apply lookup_delete_eq.
  - intros trk Hin%elem_of_map_to_list. by rw lookup_delete_eq in Hin.
  - intros i u. rw lookup_fmap. destruct (users d !! i); last done.
    simpl. intros [= <-]. apply pull_removes.
  - intros i trk. rw /listed /=. destruct (_ !! i); last by apply not_elem_of_nil.
    simpl. apply populate_not_listed. left. apply lookup_delete_eq.
Qed.

(** C6, as the code has it. Deleting a well-formed id that no track has
    is not reported: a logged-in client gets the redirect to [/browse],
    the answer of a deletion that removed a track; the tracks are
    unchanged and the id is pulled from every user's favorites. *)
Theorem delete_absent_track rt d req id t uid :
  route req = POST_delete id →
  resolve d (cookie req) = Some uid →
  castObjectId id = Some t →
  tracks d !! t = None →
  app castObjectId eksBlowfish rt d req
  = (mkDb (pull t <$> users d) (tracks d) (sessions d), redirect "/browse").
Proof.
  intros Hr Hres Hcast Habs.
  rw (post_delete_spec rt d req id t uid Hr Hres Hcast).
  by rw delete_id.
Qed.

(** C4. Adding a favorite twice lists it once: for a logged-in user whose
    favorites hold no id twice (an invariant of the database, see
    [reachable_invariants]) and a track [t] of the collection, two
    [POST /favorite/t] in sequence both succeed, the second changes
    nothing, and the user is then listed the track with id [t] exactly
    once. *)
Theorem favorite_twice_listed_once rt1 rt2 d req1 req2 id t uid u trk :
  route req1 = POST_favorite id →
  route req2 = POST_favorite id →
  resolve d (cookie req1) = Some uid →
  cookie req2 = cookie req1 →
  castObjectId id = Some t →
  users d !! uid = Some u →
  NoDup (favorites u) →
  tracks d !! t = Some trk →
  ∃ d1,
    app castObjectId eksBlowfish rt1 d req1 = (d1, redirect "/favorites")
    ∧ app castObjectId eksBlowfish rt2 d1 req2 = (d1, redirect "/favorites")
    ∧ occurrences t (listed d1 uid) = 1.
Proof.
  intros Hr1 Hr2 Hres Hc Hcast Hu Hnd Ht.
  exists (set_users (alter (addToSet t) uid) d). split_and!.
  - by eapply post_favorite_spec.
  - assert (resolve (set_users (alter (addToSet t) uid) d) (cookie req2)
            = Some uid) as Hres2 by (by rw Hc).
    rw (post_favorite_spec rt2 _ req2 id t uid Hr2 Hres2 Hcast).
    f_equal. rw /set_users /=. f_equal.
    rw alter_alter_eq. apply alter_ext. intros x _. simpl.
    apply addToSet_idempotent.
  - rw /listed /= lookup_alter decide_True // Hu /=.
    rw occurrences_populate Ht. apply NoDup_count.
    + by apply addToSet_NoDup.
    + apply addToSet_adds.
Qed.

(** C10. A favorite needs no track: for a logged-in user that exists and
    every well-formed id [t], whether a track of the collection has it or
    not, [POST /favorite/t] succeeds and puts [t] among the user's
    favorites, the tracks being untouched; when no track has the id, the
    user is listed no track for it. *)
Theorem favorite_dangling rt d req id t uid u :
  route req = POST_favorite id →
  resolve d (cookie req) = Some uid →
  castObjectId id = Some t →
  users d !! uid = Some u →
  ∃ d' u',
    app castObjectId eksBlowfish rt d req = (d', redirect "/favorites")
    ∧ users d' !! uid = Some u' ∧ t ∈ favorites u'
    ∧ tracks d' = tracks d
    ∧ (tracks d !! t = None → ∀ trk, (t, trk) ∉ listed d' uid).
Proof.
  intros Hr Hres Hcast Hu.
  exists (set_users (alter (addToSet t) uid) d), (addToSet t u). split_and!.
  - by eapply post_favorite_spec.
  - by rw /= lookup_alter decide_True // Hu.
  - apply addToSet_adds.
  - done.
  - intros Ht trk. rw /listed /= lookup_alter decide_True // Hu /=.
    apply populate_not_listed. by left.
Qed.

(** C8. On an empty track collection the randomizer page gets no track:
    [GET /] renders [index] with [track] undefined and [tracksCount] 0; it
    sends no error status, adds no error message of its own, and leaves the
    database as it was. *)
Theorem root_on_empty_store rt d req :
  route req = GET_root →
  tracks d = ∅ →
  ∃ user,
    app castObjectId eksBlowfish rt d req
    = (d, render_index None user 0 (or_default (query req !! "error") "")).
Proof.
  intros Hr Hempty. rw /app Hr /=.
  destruct (session_load d rt req) as [sid [[uid|]]]; run;
    rw Hempty map_to_list_empty /=; eexists; by rw session_commit_same.
Qed.

(** ** Registration *)

Lemma session_load_resolve d rt req :
  userId (session_load d rt req).2 = resolve d (cookie req).
Proof.
  rw /session_load /resolve. destruct (cookie req) as [sid|]; last done.
  simpl. by destruct (sessions d !! sid).
Qed.

Lemma users_session_commit s st : users (session_commit s st) = users (db st).
Proof. rw /session_commit. destruct (session st); last done. by case_bool_decide. Qed.

Lemma tracks_session_commit s st : tracks (session_commit s st) = tracks (db st).
Proof. rw /session_commit. destruct (session st); last done. by case_bool_decide. Qed.

Lemma session_load_cases d rt req :
  (session_load d rt req).2 = mkSession None
  ∨ sessions d !! (session_load d rt req).1 = Some (session_load d rt req).2.
Proof.
  rw /session_load. destruct (cookie req) as [sid|]; last by left.
  destruct (sessions d !! sid) eqn:Hs; [by right|by left].
Qed.

(** A handler that ends with [req.session.userId = uid] leaves the
    request's session id bound to [uid]. *)
Lemma resolve_session_commit d rt req d' uid :
  sessions d' = sessions d →
  resolve (session_commit (session_load d rt req).2
             (mkState d' (session_load d rt req).1 (Some (mkSession (Some uid)))))
    (Some (session_load d rt req).1)
  = Some uid.
Proof.
  intros Hss. rw /session_commit /=. case_bool_decide as Heq.
  - destruct (session_load_cases d rt req) as [Hnew|Hold].
    + by rw Hnew in Heq.
    + by rw /resolve /= Hss Hold -Heq.
  - by rw /resolve /= lookup_insert_eq.
Qed.

(** [POST /register] with a username that is free, a password of six
    characters or more and a fresh ObjectId: the user is stored with the
    hash of the password and the session of the request is theirs. *)
Lemma post_register_ok rt d req u p :
  route req = POST_register →
  body req !! "username" = Some u →
  body req !! "password" = Some p →
  u ≠ "" → (6 ≤ String.length p)%nat →
  users d !! newObjectId rt = None →
  (∀ i x, users d !! i = Some x → username x ≠ u) →
  ∃ d',
    app castObjectId eksBlowfish rt d req = (d', redirect "/")
    ∧ users d' = <[newObjectId rt :=
                     mkUser u (bcrypt_hashSync eksBlowfish p (genSalt rt 10)) []]>
                   (users d)
    ∧ tracks d' = tracks d
    ∧ resolve d' (Some (session_load d rt req).1) = Some (newObjectId rt).
Proof.
  intros Hr Hu Hp Hne Hlen Hid Hfree. rw /app Hr /=.
  pose proof (resolve_session_commit d rt req) as Hcommit.
  destruct (session_load d rt req) as [sid s]. run. rw Hu Hp /=.
  assert (p ≠ "") as Hpe by (intros ->; simpl in Hlen; lia).
  assert (¬ (String.length p < 6)%nat) as Hlen' by lia.
  rw (bool_decide_false _ Hne) (bool_decide_false _ Hpe)
     (bool_decide_false _ Hlen') /=.
  assert (¬ (is_Some (users d !! newObjectId rt)
             ∨ map_Exists (λ _ x, username x = u) (users d))) as Hnew.
  { intros [[x Hx]|(i & x & Hx & Hux)]; [congruence|by eapply Hfree]. }
  rw (bool_decide_false _ Hnew) /=.
  eexists. split; first done.
  rw users_session_commit tracks_session_commit. split_and!; [done..|].
  by apply Hcommit.
Qed.

(** [POST /register] answers with the redirect to [/] only when it stored
    the user. *)
Lemma post_register_redirect_inv rt d req d' :
  route req = POST_register →
  app castObjectId eksBlowfish rt d req = (d', redirect "/") →
  ∃ u p,
    body req !! "username" = Some u ∧ body req !! "password" = Some p
    ∧ u ≠ ""
    ∧ users d' = <[newObjectId rt :=
                     mkUser u (bcrypt_hashSync eksBlowfish p (genSalt rt 10)) []]>
                   (users d).
Proof.
  intros Hr. rw /app Hr /=.
  destruct (session_load d rt req) as [sid s]. run.
  destruct (body req !! "username") as [u|]; last done.
  destruct (body req !! "password") as [p|]; last done. simpl.
  repeat (case_bool_decide; simpl; try done).
  intros [= <-]. exists u, p. by rw users_session_commit.
Qed.

(** [POST /register] with a username that a user has: nothing is written,
    and a password that passes the length check gets the message of the
    duplicate key. *)
Lemma post_register_taken rt d req u :
  route req = POST_register →
  body req !! "username" = Some u →
  (∃ i x, users d !! i = Some x ∧ username x = u) →
  (app castObjectId eksBlowfish rt d req).1 = d
  ∧ ∀ p, u ≠ "" → body req !! "password" = Some p → (6 ≤ String.length p)%nat →
      (app castObjectId eksBlowfish rt d req).2
      = render_register "That username is already taken. Please try another.".
Proof.
  intros Hr Hu (i & x & Hx & Hux). rw /app Hr /=.
  destruct (session_load d rt req) as [sid s]. run. rw Hu.
  assert (is_Some (users d !! newObjectId rt)
          ∨ map_Exists (λ _ x, username x = u) (users d)) as Hdup.
  { right. by exists i, x. }
  destruct (body req !! "password") as [p|]; simpl;
    last by (split; [apply session_commit_same|done]).
  repeat (case_bool_decide; simpl); try done;
    (split; [by apply session_commit_same|]);
    intros p' Hne [= <-] Hlen; try done; try lia.
  subst p. simpl in Hlen. lia.
Qed.

(** C3. Registering a username twice: once [POST /register] has succeeded
    for a username, a second [POST /register] with that username writes
    nothing, so the first user's record (password hash and favorites) stays
    as it was stored, and when its password passes the length check the
    form is rendered again with the message that the username is taken. *)
Theorem register_duplicate_username rt1 rt2 d req1 req2 u d1 :
  route req1 = POST_register →
  body req1 !! "username" = Some u →
  app castObjectId eksBlowfish rt1 d req1 = (d1, redirect "/") →
  route req2 = POST_register →
  body req2 !! "username" = Some u →
  ∃ first,
    users d1 !! newObjectId rt1 = Some first ∧ username first = u
    ∧ (app castObjectId eksBlowfish rt2 d1 req2).1 = d1
    ∧ ∀ p2, body req2 !! "password" = Some p2 → (6 ≤ String.length p2)%nat →
        app castObjectId eksBlowfish rt2 d1 req2
        = (d1, render_register
                 "That username is already taken. Please try another.").
Proof.
  intros Hr1 Hu1 Happ1 Hr2 Hu2.
  destruct (post_register_redirect_inv _ _ _ _ Hr1 Happ1)
    as (u' & p1 & Hu1' & Hp1 & Hne & Husers).
  assert (u' = u) as -> by congruence.
  assert (users d1 !! newObjectId rt1
          = Some (mkUser u (bcrypt_hashSync eksBlowfish p1 (genSalt rt1 10)) []))
    as Hfirst by (rw Husers; apply lookup_insert_eq).
  eexists. split; first exact Hfirst.
  split; first done.
  destruct (post_register_taken rt2 d1 req2 u Hr2 Hu2) as [Hdb Hmsg].
  { do 2 eexists. split; [exact Hfirst|done]. }
  split; first done.
  intros p2 Hp2 Hlen. specialize (Hmsg p2 Hne Hp2 Hlen).
  destruct (app castObjectId eksBlowfish rt2 d1 req2) as [d2 r2].
  simpl in *. by subst.
Qed.

(** ** Passwords *)

Lemma length_append (a b : string) :
  String.length (a +:+ b) = (String.length a + String.length b)%nat.
Proof. induction a as [|c a IH]; simpl; [done|by rw IH]. Qed.

Lemma substring_append (a b : string) :
  substring 0 (String.length a) (a +:+ b) = a.
Proof.
  induction a as [|c a IH]; simpl.
  - by destruct b.
  - by rw IH.
Qed.

(** Against a hash that [hashSync] made, [compareSync] compares the two
    digests. *)
Lemma bcrypt_compareSync_hashSync c p salt :
  (∀ k s, String.length (eksBlowfish k s) = 31) →
  String.length salt = 29 →
  bcrypt_compareSync eksBlowfish c (bcrypt_hashSync eksBlowfish p salt)
  = bool_decide (eksBlowfish (bcrypt_key c) salt = eksBlowfish (bcrypt_key p) salt).
Proof.
  intros Hdigest Hsalt. rw /bcrypt_compareSync /bcrypt_hashSync.
  rw length_append Hsalt Hdigest /=.
  replace 29 with (String.length salt). rw substring_append.
  apply bool_decide_ext. split; [apply String.app_inj|by intros ->].
Qed.

(** [compareSync] reads no more of a password than its key. *)
Lemma bcrypt_compareSync_key c p hash :
  bcrypt_key c = bcrypt_key p →
  bcrypt_compareSync eksBlowfish c hash = bcrypt_compareSync eksBlowfish p hash.
Proof. intros Hkey. by rw /bcrypt_compareSync /bcrypt_hashSync Hkey. Qed.

(** C2, as the code has it. For a username that is free and not empty and
    a password of six characters or more, [POST /register] succeeds and
    stores the user with a bcrypt hash that [comparePassword] accepts for
    the same password; it accepts every other password with the same key
    (the first 72 bytes) as well, and refuses a password whose digest under
    the stored salt differs. *)
Theorem register_then_verify rt d req u p :
  (∀ k s, String.length (eksBlowfish k s) = 31) →
  String.length (genSalt rt 10) = 29 →
  route req = POST_register →
  body req !! "username" = Some u →
  body req !! "password" = Some p →
  u ≠ "" → (6 ≤ String.length p)%nat →
  users d !! newObjectId rt = None →
  (∀ i x, users d !! i = Some x → username x ≠ u) →
  ∃ d' user,
    app castObjectId eksBlowfish rt d req = (d', redirect "/")
    ∧ users d' !! newObjectId rt = Some user ∧ username user = u
    ∧ (∀ st, comparePassword eksBlowfish user (Some p) st = (inr true, st))
    ∧ (∀ c st, bcrypt_key c = bcrypt_key p →
         comparePassword eksBlowfish user (Some c) st = (inr true, st))
    ∧ (∀ c st,
         eksBlowfish (bcrypt_key c) (genSalt rt 10)
           ≠ eksBlowfish (bcrypt_key p) (genSalt rt 10) →
         comparePassword eksBlowfish user (Some c) st = (inr false, st)).
Proof.
  intros Hdigest Hsalt Hr Hu Hp Hne Hlen Hid Hfree.
  destruct (post_register_ok rt d req u p Hr Hu Hp Hne Hlen Hid Hfree)
    as (d' & Happ & Husers & _).
  exists d', (mkUser u (bcrypt_hashSync eksBlowfish p (genSalt rt 10)) []).
  split_and!; [done|by rw Husers lookup_insert_eq|done|..].
  - intros st. run. by rw bcrypt_compareSync_hashSync // bool_decide_true.
  - intros c st Hkey. run.
    by rw bcrypt_compareSync_hashSync // Hkey bool_decide_true.
  - intros c st Hdiff. run.
    by rw bcrypt_compareSync_hashSync // bool_decide_false.
Qed.

(** C7. A track submitted by a logged-in client with a name and no
    [embedUrl] field is answered with status 500: [embedUrl.includes]
    throws on [undefined], and the handler's [catch] sends the server
    error. *)
Theorem add_without_embedUrl rt d req uid n :
  route req = POST_add →
  resolve d (cookie req) = Some uid →
  body req !! "name" = Some n → n ≠ "" →
  body req !! "embedUrl" = None →
  app castObjectId eksBlowfish rt d req
  = (d, send 500 "Error adding track. Check server logs.").
Proof.
  intros Hr (sid & Hc & Hs)%resolve_Some Hn Hne He.
  rw /app /session_load Hc Hs Hr /=. run. rw Hn He /=.
  by rw (bool_decide_false _ Hne) /= session_commit_same.
Qed.

(** The other invalid submissions are answered with the redirect that
    carries the message: an absent or empty name, or an [embedUrl] without
    [youtube.com/embed/]. *)
Lemma post_add_invalid rt d req uid :
  route req = POST_add →
  resolve d (cookie req) = Some uid →
  falsy (body req !! "name") = true
  ∨ (∃ e, body req !! "embedUrl" = Some e
          ∧ includes e "youtube.com/embed/" = false) →
  app castObjectId eksBlowfish rt d req
  = (d, redirect ("/?error=" +:+ encodeURIComponent
       "Invalid track details: Name is required, and URL must be a YouTube embed link.")).
Proof.
  intros Hr (sid & Hc & Hs)%resolve_Some Hinv.
  rw /app /session_load Hc Hs Hr /=. run.
  destruct (body req !! "name") as [n|] eqn:Hn; simpl;
    last by rw session_commit_same.
  case_bool_decide as Hne; simpl; first by rw session_commit_same.
  destruct Hinv as [Hf|(e & He & Hinc)].
  - simpl in Hf. by rw bool_decide_false in Hf.
  - by rw He /= Hinc /= session_commit_same.
Qed.

(** ** Invariants *)

(** Case analysis over the routes and the branches of their handlers. *)
Ltac by_route d rt req :=
  rw /app; destruct (session_load d rt req) as [? [[?|]]];
  destruct (route req); simpl; run;
  repeat (first [ progress (rw ?users_session_commit /=)
                | case_match; simpl in *
                | case_bool_decide; simpl in * ]);
  simplify_eq/=.

Lemma app_users_change rt d req :
  users_change (users d) (users (app castObjectId eksBlowfish rt d req).1).
Proof.
  by_route d rt req; try by constructor.
  all: match goal with
       | Hn : ¬ (is_Some _ ∨ map_Exists _ _) |- _ =>
           apply users_insert;
           [ apply eq_None_not_Some; intros ?; apply Hn; by left
           | intros j x Hx Hux; apply Hn; right; by exists j, x ]
       end.
Qed.

Lemma findOne_found (us : gmap ObjectId User) u p :
  snd <$> list_find (λ d, username d.2 = u) (map_to_list us) = Some p →
  us !! p.1 = Some p.2 ∧ username p.2 = u.
Proof.
  intros ([i q] & Hfind & ->)%fmap_Some.
  apply list_find_Some in Hfind as (Hi & Hq & _). split; last done.
  apply elem_of_map_to_list'. by eapply list_elem_of_lookup_2.
Qed.

Lemma app_sessions_change rt d req :
  sessions_change (users (app castObjectId eksBlowfish rt d req).1)
    (sessions d) (sessions (app castObjectId eksBlowfish rt d req).1).
Proof.
  rw /app; destruct (session_load d rt req) as [sid [[uid|]]];
  destruct (route req); simpl; run;
  repeat (first [ case_match; simpl in * ]);
  simplify_eq/=; rw /session_commit /=;
  repeat (case_bool_decide; simpl in * ); simplify_eq/=;
  try by constructor.
  all: apply sessions_login.
  all: try by rw lookup_insert_eq.
  all: match goal with
       | Hf : snd <$> list_find _ _ = Some _ |- _ =>
           apply findOne_found in Hf as [Hf _]; by rw Hf
       end.
Qed.

Lemma users_change_lookup us us' i :
  users_change us us' → is_Some (us !! i) → is_Some (us' !! i).
Proof.
  intros [|j u p Hj _|t j|t j|t] [x Hx].
  - eauto.
  - rw lookup_insert_ne; [eauto|congruence].
  - rw lookup_alter. case_decide; subst; rw Hx; eauto.
  - rw lookup_alter. case_decide; subst; rw Hx; eauto.
  - rw lookup_fmap Hx. eauto.
Qed.

Lemma users_change_favorites us us' :
  users_change us us' →
  (∀ i u, us !! i = Some u → NoDup (favorites u)) →
  ∀ i u, us' !! i = Some u → NoDup (favorites u).
Proof.
  intros [|j n p Hj _|t j|t j|t] Hinv i u.
  - apply Hinv.
  - rw lookup_insert. case_decide; last by apply Hinv.
    intros [= <-]. apply NoDup_nil_2.
  - rw lookup_alter. case_decide; last by apply Hinv. subst j.
    destruct (us !! i) as [x|] eqn:Hx; last done.
    intros [= <-]. apply addToSet_NoDup. by eapply Hinv.
  - rw lookup_alter. case_decide; last by apply Hinv. subst j.
    destruct (us !! i) as [x|] eqn:Hx; last done.
    intros [= <-]. apply pull_NoDup. by eapply Hinv.
  - rw lookup_fmap. destruct (us !! i) as [x|] eqn:Hx; last done.
    intros [= <-]. apply pull_NoDup. by eapply Hinv.
Qed.

Lemma users_change_username us us' i u :
  users_change us us' → us' !! i = Some u →
  (∃ x, us !! i = Some x ∧ username x = username u)
  ∨ (us !! i = None ∧ ∀ j x, us !! j = Some x → username x ≠ username u).
Proof.
  intros [|j n p Hj Hfree|t j|t j|t].
  - eauto.
  - rw lookup_insert. case_decide; last by eauto. subst j.
    intros [= <-]. right. eauto.
  - rw lookup_alter. case_decide; last by eauto. subst j.
    destruct (us !! i) as [x|] eqn:Hx; last done. intros [= <-]. eauto.
  - rw lookup_alter. case_decide; last by eauto. subst j.
    destruct (us !! i) as [x|] eqn:Hx; last done. intros [= <-]. eauto.
  - rw lookup_fmap. destruct (us !! i) as [x|] eqn:Hx; last done.
    intros [= <-]. eauto.
Qed.

(** Every request keeps the three invariants. *)
Lemma app_favorites_are_sets rt d req :
  favorites_are_sets d →
  favorites_are_sets (app castObjectId eksBlowfish rt d req).1.
Proof.
  intros Hinv i u. eapply users_change_favorites; [apply app_users_change|done].
Qed.

Lemma app_usernames_unique rt d req :
  usernames_unique d →
  usernames_unique (app castObjectId eksBlowfish rt d req).1.
Proof.
  intros Hinv i j u v Hu Hv Heq.
  pose proof (app_users_change rt d req) as Hch.
  destruct (users_change_username _ _ _ _ Hch Hu) as [(x & Hx & Hxu)|[Hi Hfu]];
  destruct (users_change_username _ _ _ _ Hch Hv) as [(y & Hy & Hyv)|[Hj Hfv]].
  - eapply Hinv; [done..|congruence].
  - exfalso. eapply Hfv; [done|congruence].
  - exfalso. eapply Hfu; [done|congruence].
  - (* both new: one request inserts at most one user *)
    inversion Hch as [Heq'|k n p Hk _ Heq'|t k Heq'|t k Heq'|t Heq'];
      rw -Heq' in Hu Hv.
    + congruence.
    + rw lookup_insert in Hu. rw lookup_insert in Hv.
      repeat case_decide; congruence.
    + rw lookup_alter in Hu. case_decide; [subst k; by rw Hi in Hu|congruence].
    + rw lookup_alter in Hu. case_decide; [subst k; by rw Hi in Hu|congruence].
    + by rw lookup_fmap Hi in Hu.
Qed.

Lemma app_sessions_of_users rt d req :
  sessions_of_users d →
  sessions_of_users (app castObjectId eksBlowfish rt d req).1.
Proof.
  intros Hinv sid s uid Hs Huid.
  pose proof (app_users_change rt d req) as Hus.
  destruct (app_sessions_change rt d req) as [|sid'|sid' uid' Hsome].
  - eapply users_change_lookup; [done|]. by eapply Hinv.
  - apply lookup_delete_Some in Hs as [_ Hs].
    eapply users_change_lookup; [done|]. by eapply Hinv.
  - rw lookup_insert in Hs. case_decide.
    + simplify_eq/=. done.
    + eapply users_change_lookup; [done|]. by eapply Hinv.
Qed.

(** The invariants hold in every database the application reaches. *)
Theorem reachable_invariants d :
  reachable castObjectId eksBlowfish d →
  favorites_are_sets d ∧ usernames_unique d ∧ sessions_of_users d.
Proof.
  induction 1 as [ts|rt d req _ (Hf & Hu & Hs)|d ts _ (Hf & Hu & Hs)].
  - split_and!.
    + by intros i u Hi.
    + by intros i j u v Hi.
    + by intros sid s uid Hs.
  - split_and!.
    + by apply app_favorites_are_sets.
    + by apply app_usernames_unique.
    + by apply app_sessions_of_users.
  - done.
Qed.

(** Every exception a handler's calls throw is caught by the handler. *)
Theorem app_handles_errors rt d req e :
  (app castObjectId eksBlowfish rt d req).2 ≠ unhandled e.
Proof. by_route d rt req; done. Qed.

(** ** Logging in *)

Lemma findOne_unique d uid u :
  usernames_unique d →
  users d !! uid = Some u →
  snd <$> list_find (λ x, username x.2 = username u) (map_to_list (users d))
  = Some (uid, u).
Proof.
  intros Huniq Hu.
  destruct (list_find_elem_of (λ x : Doc User, username x.2 = username u)
              (map_to_list (users d)) (uid, u)) as [[i q] Hfind];
    [by apply elem_of_map_to_list|done|].
  rw Hfind /=.
  destruct (findOne_found (users d) (username u) q) as [Hq Hname];
    first by rw Hfind.
  assert (q.1 = uid) as Hid by (by eapply Huniq).
  destruct q as [j v]; simpl in *. subst j. congruence.
Qed.

(** [POST /login] with the username of a user and a password that
    [comparePassword] accepts: the session of the request is theirs. *)
Lemma post_login_ok rt d req uid u p :
  usernames_unique d →
  route req = POST_login →
  body req !! "username" = Some (username u) →
  body req !! "password" = Some p →
  users d !! uid = Some u →
  bcrypt_compareSync eksBlowfish p (password u) = true →
  ∃ d',
    app castObjectId eksBlowfish rt d req = (d', redirect "/")
    ∧ users d' = users d ∧ tracks d' = tracks d
    ∧ resolve d' (Some (session_load d rt req).1) = Some uid.
Proof.
  intros Huniq Hr Hn Hp Hu Hok. rw /app Hr /=.
  pose proof (resolve_session_commit d rt req d uid eq_refl) as Hcommit.
  destruct (session_load d rt req) as [sid s]. run.
  rw Hn Hp /= (findOne_unique d uid u Huniq Hu) /= Hok /=.
  eexists. split; first done.
  by rw users_session_commit tracks_session_commit.
Qed.

(** ... and with a password that it refuses: nothing is written. *)
Lemma post_login_wrong_password rt d req uid u p :
  usernames_unique d →
  route req = POST_login →
  body req !! "username" = Some (username u) →
  body req !! "password" = Some p →
  users d !! uid = Some u →
  bcrypt_compareSync eksBlowfish p (password u) = false →
  app castObjectId eksBlowfish rt d req
  = (d, render_login "Invalid username or password.").
Proof.
  intros Huniq Hr Hn Hp Hu Hno. rw /app Hr /=.
  destruct (session_load d rt req) as [sid s]. run.
  rw Hn Hp /= (findOne_unique d uid u Huniq Hu) /= Hno /=.
  by rw session_commit_same.
Qed.

(** ** Logging out *)

(** After [POST /logout] the store no longer knows the session id of the
    request: a later request that carries it is not logged in. *)
Theorem logout_forgets_session rt d req sid :
  route req = POST_logout →
  cookie req = Some sid →
  app castObjectId eksBlowfish rt d req
  = (set_sessions (delete (session_load d rt req).1) d, redirect "/login")
  ∧ resolve (app castObjectId eksBlowfish rt d req).1 (Some sid) = None.
Proof.
  intros Hr Hc. rw /app Hr /=.
  destruct (session_load d rt req) as [sid' s] eqn:Hl. run.
  split; first done. rw /session_commit /= /resolve /=.
  revert Hl. rw /session_load Hc.
  destruct (sessions d !! sid) as [s0|] eqn:Hs.
  - intros [= <- <-]. by rw lookup_delete_eq.
  - intros [= <- <-].
    destruct (decide (genid rt = sid)) as [->|Hne].
    + by rw lookup_delete_eq.
    + by rw lookup_delete_ne // Hs.
Qed.

(** A route behind [isAuthenticated] sends a client that is not logged in
    to [/login] and writes nothing. *)
Theorem protected_routes_need_login rt d req :
  protected (route req) = true →
  resolve d (cookie req) = None →
  app castObjectId eksBlowfish rt d req = (d, redirect "/login").
Proof.
  intros Hp Hres. rw /app.
  pose proof (session_load_resolve d rt req) as Hl. rw Hres in Hl.
  destruct (session_load d rt req) as [sid [o]]. simpl in Hl. subst o.
  destruct (route req); try done; simpl; run; by rw session_commit_same.
Qed.


End Properties.

(** * The theorems at the example database *)

Lemma length_hex_digits n x : String.length (hex_digits n x) = n.
Proof. revert x. induction n as [|n IH]; intros x; simpl; [done|by rw IH]. Qed.

Lemma toyBlowfish_length k s : String.length (toyBlowfish k s) = 31.
Proof. apply length_hex_digits. Qed.

Lemma exampleDb_no_carol i x :
  users exampleDb !! i = Some x → username x ≠ "carol".
Proof.
  rw /exampleDb /= !lookup_insert.
  repeat case_decide; [by intros [= <-]..|by rw lookup_empty].
Qed.

(** Alice deletes track 1, which she and bob have among their favorites. *)
Lemma delete_cascades_example :
  ∃ t, hexObjectId track1_id = Some t
    ∧ tracks afterDelete !! t = None
    ∧ (∀ trk, (t, trk) ∉ map_to_list (tracks afterDelete))
    ∧ (∀ uid u, users afterDelete !! uid = Some u → t ∉ favorites u)
    ∧ (∀ uid trk, (t, trk) ∉ listed afterDelete uid).
Proof.
  apply (delete_cascades hexObjectId toyBlowfish exampleRuntime exampleDb
           (alice_request (POST_delete track1_id) ∅) track1_id).
  - vm_compute; reflexivity.
  - vm_compute. reflexivity.
Defined.

(** Carol registers with the password [password1]. *)
Lemma register_then_verify_example :
  ∃ d' user,
    app hexObjectId toyBlowfish exampleRuntime exampleDb
      (anonymous_request POST_register (register_form "carol" "password1"))
    = (d', redirect "/")
    ∧ users d' !! newObjectId exampleRuntime = Some user
    ∧ username user = "carol"
    ∧ (∀ st, comparePassword toyBlowfish user (Some "password1") st
             = (inr true, st))
    ∧ (∀ c st, bcrypt_key c = bcrypt_key "password1" →
         comparePassword toyBlowfish user (Some c) st = (inr true, st))
    ∧ (∀ c st,
         toyBlowfish (bcrypt_key c) (genSalt exampleRuntime 10)
           ≠ toyBlowfish (bcrypt_key "password1") (genSalt exampleRuntime 10) →
         comparePassword toyBlowfish user (Some c) st = (inr false, st)).
Proof.
  apply (register_then_verify hexObjectId toyBlowfish exampleRuntime exampleDb
           (anonymous_request POST_register (register_form "carol" "password1"))
           "carol" "password1").
  - apply toyBlowfish_length.
  - vm_compute; reflexivity.
  - vm_compute; reflexivity.
  - vm_compute; reflexivity.
  - vm_compute; reflexivity.
  - discriminate.
  - vm_compute. lia.
  - vm_compute; reflexivity.
  - apply exampleDb_no_carol.
Defined.

(** The claim of C2 fails for passwords that agree on their first 72
    bytes: they are two passwords, the first of length 73, no hash tells
    them apart, and the user registered with the first is verified with
    the second. *)
Lemma verify_accepts_another_password :
  long_password ≠ other_long_password
  ∧ String.length long_password = 73
  ∧ (∀ eks hash,
       bcrypt_compareSync eks other_long_password hash
       = bcrypt_compareSync eks long_password hash)
  ∧ app hexObjectId toyBlowfish exampleRuntime emptyDb
      (anonymous_request POST_register (register_form "dave" long_password))
    = (afterLongRegister, redirect "/")
  ∧ ∃ user,
      users afterLongRegister !! 12%N = Some user
      ∧ comparePassword toyBlowfish user (Some other_long_password)
          (mkState afterLongRegister "sidC" None)
        = (inr true, mkState afterLongRegister "sidC" None)
      ∧ comparePassword toyBlowfish user (Some "password1")
          (mkState afterLongRegister "sidC" None)
        = (inr false, mkState afterLongRegister "sidC" None).
Proof.
  split_and!.
  - apply (bool_decide_unpack _). by vm_compute.
  - vm_compute; reflexivity.
  - intros eks hash. apply bcrypt_compareSync_key. vm_compute; reflexivity.
  - vm_compute; reflexivity.
  - exists (mkUser "dave" (bcrypt_hashSync toyBlowfish long_password toySalt) []).
    split_and!; vm_compute; reflexivity.
Qed.

(** Carol registers, then her username is registered again. *)
Lemma register_duplicate_username_example :
  ∃ first,
    users afterRegister !! newObjectId exampleRuntime = Some first
    ∧ username first = "carol"
    ∧ (app hexObjectId toyBlowfish (toyRuntime 13 "sidD") afterRegister
         (anonymous_request POST_register (register_form "carol" "another1"))).1
      = afterRegister
    ∧ ∀ p2,
        body (anonymous_request POST_register (register_form "carol" "another1"))
          !! "password" = Some p2 →
        (6 ≤ String.length p2)%nat →
        app hexObjectId toyBlowfish (toyRuntime 13 "sidD") afterRegister
          (anonymous_request POST_register (register_form "carol" "another1"))
        = (afterRegister,
           render_register "That username is already taken. Please try another.").
Proof.
  apply (register_duplicate_username hexObjectId toyBlowfish exampleRuntime
           (toyRuntime 13 "sidD") exampleDb
           (anonymous_request POST_register (register_form "carol" "password1"))
           (anonymous_request POST_register (register_form "carol" "another1"))
           "carol" afterRegister).
  - vm_compute; reflexivity.
  - vm_compute; reflexivity.
  - vm_compute. reflexivity.
  - vm_compute; reflexivity.
  - vm_compute; reflexivity.
Defined.

(** Bob, who has track 1 among his favorites, adds track 2 twice. *)
Lemma favorite_twice_example :
  ∃ d1,
    app hexObjectId toyBlowfish exampleRuntime exampleDb
      (bob_request (POST_favorite track2_id) ∅) = (d1, redirect "/favorites")
    ∧ app hexObjectId toyBlowfish exampleRuntime d1
        (bob_request (POST_favorite track2_id) ∅) = (d1, redirect "/favorites")
    ∧ occurrences 2%N (listed d1 11%N) = 1.
Proof.
  apply (favorite_twice_listed_once hexObjectId toyBlowfish exampleRuntime
           exampleRuntime exampleDb (bob_request (POST_favorite track2_id) ∅)
           (bob_request (POST_favorite track2_id) ∅) track2_id 2%N 11%N bob
           (mkMusicTrack "French Jazz Cafe" "Bistro Background"
              "Lo-Fi Instrumental"
              "https://www.youtube.com/embed/m6lH_S_z-xM" 0)).
  - vm_compute; reflexivity.
  - vm_compute; reflexivity.
  - vm_compute; reflexivity.
  - vm_compute; reflexivity.
  - vm_compute; reflexivity.
  - vm_compute; reflexivity.
  - apply NoDup_singleton.
  - vm_compute; reflexivity.
Defined.

(** Bob removes track 2, which is not among his favorites. *)
Lemma unfavorite_absent_example :
  ∃ d',
    app hexObjectId toyBlowfish exampleRuntime exampleDb
      (bob_request (POST_unfavorite track2_id) ∅) = (d', redirect "/favorites")
    ∧ d' = exampleDb ∧ listed d' 11%N = listed exampleDb 11%N.
Proof.
  apply (unfavorite_absent_noop hexObjectId toyBlowfish exampleRuntime exampleDb
           (bob_request (POST_unfavorite track2_id) ∅) track2_id 2%N 11%N).
  - vm_compute; reflexivity.
  - vm_compute; reflexivity.
  - vm_compute; reflexivity.
  - intros u [= <-]. vm_compute. by intros [?|[]%elem_of_nil]%elem_of_cons.
Defined.

(** Alice deletes track 3, which does not exist. *)
Lemma delete_absent_example :
  app hexObjectId toyBlowfish exampleRuntime exampleDb
    (alice_request (POST_delete track3_id) ∅)
  = (mkDb (pull 3%N <$> users exampleDb) (tracks exampleDb) (sessions exampleDb),
     redirect "/browse").
Proof.
  apply (delete_absent_track hexObjectId toyBlowfish exampleRuntime exampleDb
           (alice_request (POST_delete track3_id) ∅) track3_id 3%N 10%N).
  - vm_compute; reflexivity.
  - vm_compute; reflexivity.
  - vm_compute; reflexivity.
  - vm_compute; reflexivity.
Defined.

(** The claim of C6 fails at the id of track 3, which the example database
    does not have: the deletion answers as the deletion of track 1 does,
    with the redirect to [/browse], and the database is as it was. *)
Lemma delete_absent_not_reported :
  hexObjectId track3_id = Some 3%N
  ∧ tracks exampleDb !! 3%N = None
  ∧ app hexObjectId toyBlowfish exampleRuntime exampleDb
      (alice_request (POST_delete track3_id) ∅)
    = (exampleDb, redirect "/browse")
  ∧ (app hexObjectId toyBlowfish exampleRuntime exampleDb
       (alice_request (POST_delete track1_id) ∅)).2
    = redirect "/browse".
Proof. split_and!; vm_compute; reflexivity. Qed.

(** Alice submits a track with a name and no [embedUrl] field. *)
Lemma add_without_embedUrl_example :
  app hexObjectId toyBlowfish exampleRuntime exampleDb
    (alice_request POST_add (<["name" := "Rain"]> ∅))
  = (exampleDb, send 500 "Error adding track. Check server logs.").
Proof.
  apply (add_without_embedUrl hexObjectId toyBlowfish exampleRuntime exampleDb
           (alice_request POST_add (<["name" := "Rain"]> ∅)) 10%N "Rain").
  - vm_compute; reflexivity.
  - vm_compute; reflexivity.
  - vm_compute; reflexivity.
  - discriminate.
  - vm_compute; reflexivity.
Defined.

(** The randomizer page on a database without tracks. *)
Lemma root_on_empty_store_example :
  ∃ user,
    app hexObjectId toyBlowfish exampleRuntime noTracksDb
      (alice_request GET_root ∅)
    = (noTracksDb,
       render_index None user 0
         (or_default (query (alice_request GET_root ∅) !! "error") "")).
Proof.
  apply (root_on_empty_store hexObjectId toyBlowfish exampleRuntime noTracksDb
           (alice_request GET_root ∅)).
  - vm_compute; reflexivity.
  - vm_compute; reflexivity.
Defined.

(** Alice adds the id of track 3, which does not exist, to her favorites. *)
Lemma favorite_dangling_example :
  ∃ d' u',
    app hexObjectId toyBlowfish exampleRuntime exampleDb
      (alice_request (POST_favorite track3_id) ∅) = (d', redirect "/favorites")
    ∧ users d' !! 10%N = Some u' ∧ 3%N ∈ favorites u'
    ∧ tracks d' = tracks exampleDb
    ∧ (tracks exampleDb !! 3%N = None → ∀ trk, (3%N, trk) ∉ listed d' 10%N).
Proof.
  apply (favorite_dangling hexObjectId toyBlowfish exampleRuntime exampleDb
           (alice_request (POST_favorite track3_id) ∅) track3_id 3%N 10%N alice).
  - vm_compute; reflexivity.
  - vm_compute; reflexivity.
  - vm_compute; reflexivity.
  - vm_compute; reflexivity.
Defined.

(** Carol's visit: she registers and is logged in; after logging out her
    session id resolves to nobody and the favorites page sends her to the
    login form; a wrong password is refused, the right one logs her in; the
    track she adds is listed; and after the last logout the session id
    resolves to nobody again. *)
Example scenario_carol :
  let form := register_form "carol" "password1" in
  let wrong := register_form "carol" "wrongpass" in
  resolve (scenario form [POST_register]) (Some "sidC") = Some 12%N
  ∧ resolve (scenario form [POST_register; POST_logout]) (Some "sidC") = None
  ∧ (app hexObjectId toyBlowfish exampleRuntime
       (scenario form [POST_register; POST_logout])
       (newcomer GET_favorites ∅)).2 = redirect "/login"
  ∧ (app hexObjectId toyBlowfish exampleRuntime
       (scenario form [POST_register; POST_logout])
       (newcomer POST_login wrong)).2
    = render_login "Invalid username or password."
  ∧ resolve (scenario form [POST_register; POST_logout; POST_login])
      (Some "sidC") = Some 12%N
  ∧ (listed (scenario form [POST_register; POST_logout; POST_login;
                            POST_favorite track2_id]) 12%N).*1 = [2%N]
  ∧ resolve (scenario form [POST_register; POST_logout; POST_login;
                            POST_favorite track2_id; POST_logout])
      (Some "sidC") = None.
Proof. cbv zeta. split_and!; vm_compute; reflexivity. Qed.

(** * More of the application *)

#[local] Hint Unfold MusicTrack_deleteMany MusicTrack_insertMany populateTracks
  : run.

(** ** Strings *)

Lemma prefix_append (sub b : string) : String.prefix sub (sub +:+ b) = true.
Proof.
  induction sub as [|c sub IH]; simpl; first by destruct b.
  destruct (ascii_dec c c); [exact IH|congruence].
Qed.

Lemma prefix_split (sub s : string) :
  String.prefix sub s = true → ∃ b, s = sub +:+ b.
Proof.
  revert s. induction sub as [|c sub IH]; intros s; simpl.
  - intros _. by exists s.
  - destruct s as [|c' s]; simpl; first done.
    destruct (ascii_dec c c') as [<-|]; last done.
    intros [b ->]%IH. by exists b.
Qed.

Lemma includes_cons c (s sub : string) :
  includes (String c s) sub = String.prefix sub (String c s) || includes s sub.
Proof. done. Qed.

(** [includes] finds a substring wherever it stands. *)
Lemma includes_spec (s sub : string) :
  includes s sub = true ↔ ∃ a b, s = a +:+ sub +:+ b.
Proof.
  split.
  - induction s as [|c s IH].
    + destruct sub; last done. intros _. by exists "", "".
    + rw includes_cons.
      intros [[b ->]%prefix_split|(a & b & ->)%IH]%orb_true_iff.
      * by exists "", b.
      * by exists (String c a), b.
  - intros (a & b & ->). induction a as [|c a IH].
    + destruct (sub +:+ b) as [|c r] eqn:Heq.
      * by destruct sub.
      * by rw includes_cons -Heq prefix_append.
    + change (String c a +:+ sub +:+ b) with (String c (a +:+ sub +:+ b)).
      by rw includes_cons IH orb_true_r.
Qed.

Section Coverage.
Context (castObjectId : string → option ObjectId).
Context (eksBlowfish : string → string → string).

(** ** Routes that only read *)


(** A route that no handler matches is answered with status 404. *)
Lemma not_found_spec rt d req :
  route req = no_route →
  app castObjectId eksBlowfish rt d req = (d, send 404 "404 Not Found").
Proof.
  intros Hr. rw /app Hr /=. destruct (session_load d rt req) as [sid s].
  run. by rw session_commit_same.
Qed.

(** ** Registration *)

(** A registration without a username or a password, with an empty one,
    or with a password of fewer than six characters, renders the form
    again with the message and writes nothing. *)
Theorem register_invalid_input rt d req :
  route req = POST_register →
  falsy (body req !! "username") = true
  ∨ falsy (body req !! "password") = true
  ∨ (∃ p, body req !! "password" = Some p ∧ (String.length p < 6)%nat) →
  app castObjectId eksBlowfish rt d req
  = (d, render_register
          "Username/Password cannot be empty or password too short.").
Proof.
  intros Hr Hinv. rw /app Hr /=.
  destruct (session_load d rt req) as [sid s]. run.
  destruct (body req !! "username") as [u|]; simpl;
    last by rw session_commit_same.
  destruct (body req !! "password") as [p|]; simpl;
    last by rw session_commit_same.
  repeat (case_bool_decide; simpl); try by rw session_commit_same.
  all: exfalso; destruct Hinv as [Hu|[Hp|(p' & [= <-] & Hlen)]]; simpl in *.
  all: try done.
  all: match goal with
       | Hb : bool_decide _ = true |- _ => by rw bool_decide_false in Hb
       end.
Qed.

(** A registration logs the new user in: the session id of the request
    resolves to the new user, who has no favorites and is listed nothing;
    the other users and the tracks are as before. *)
Theorem register_starts_session rt d req u p :
  route req = POST_register →
  body req !! "username" = Some u →
  body req !! "password" = Some p →
  u ≠ "" → (6 ≤ String.length p)%nat →
  users d !! newObjectId rt = None →
  (∀ i x, users d !! i = Some x → username x ≠ u) →
  ∃ d' user,
    app castObjectId eksBlowfish rt d req = (d', redirect "/")
    ∧ resolve d' (Some (session_load d rt req).1) = Some (newObjectId rt)
    ∧ users d' !! newObjectId rt = Some user
    ∧ favorites user = [] ∧ listed d' (newObjectId rt) = []
    ∧ (∀ i, i ≠ newObjectId rt → users d' !! i = users d !! i)
    ∧ tracks d' = tracks d.
Proof.
  intros Hr Hu Hp Hne Hlen Hid Hfree.
  destruct (post_register_ok castObjectId eksBlowfish rt d req u p
              Hr Hu Hp Hne Hlen Hid Hfree) as (d' & Happ & Hus & Hts & Hres).
  exists d', (mkUser u (bcrypt_hashSync eksBlowfish p (genSalt rt 10)) []).
  split_and!; try done.
  - by rw Hus lookup_insert_eq.
  - by rw /listed Hus lookup_insert_eq.
  - intros i Hi. by rw Hus lookup_insert_ne.
Qed.

(** ** Logging in *)

(** With the username of a user and a password that [comparePassword]
    accepts, [POST /login] binds the session id of the request to that
    user and changes neither users nor tracks. *)
Theorem login_binds_session rt d req uid u p :
  usernames_unique d →
  route req = POST_login →
  body req !! "username" = Some (username u) →
  body req !! "password" = Some p →
  users d !! uid = Some u →
  bcrypt_compareSync eksBlowfish p (password u) = true →
  ∃ d',
    app castObjectId eksBlowfish rt d req = (d', redirect "/")
    ∧ users d' = users d ∧ tracks d' = tracks d
    ∧ resolve d' (Some (session_load d rt req).1) = Some uid.
Proof. apply post_login_ok. Qed.

(** Register, then log in: once a registration has succeeded, a login
    with the same username and password, from any client, succeeds and is
    bound to the user the registration stored. *)
Theorem register_then_login rt1 rt2 d req1 req2 u p :
  (∀ k s, String.length (eksBlowfish k s) = 31) →
  String.length (genSalt rt1 10) = 29 →
  usernames_unique d →
  route req1 = POST_register →
  body req1 !! "username" = Some u →
  body req1 !! "password" = Some p →
  u ≠ "" → (6 ≤ String.length p)%nat →
  users d !! newObjectId rt1 = None →
  (∀ i x, users d !! i = Some x → username x ≠ u) →
  route req2 = POST_login →
  body req2 !! "username" = Some u →
  body req2 !! "password" = Some p →
  ∃ d1 d2,
    app castObjectId eksBlowfish rt1 d req1 = (d1, redirect "/")
    ∧ app castObjectId eksBlowfish rt2 d1 req2 = (d2, redirect "/")
    ∧ resolve d2 (Some (session_load d1 rt2 req2).1) = Some (newObjectId rt1).
Proof.
  intros Hdigest Hsalt Huniq Hr1 Hu1 Hp1 Hne Hlen Hid Hfree Hr2 Hu2 Hp2.
  destruct (post_register_ok castObjectId eksBlowfish rt1 d req1 u p
              Hr1 Hu1 Hp1 Hne Hlen Hid Hfree) as (d1 & Happ1 & Hus & _).
  assert (usernames_unique d1) as Huniq1.
  { pose proof (app_usernames_unique castObjectId eksBlowfish rt1 d req1 Huniq)
      as H1. by rw Happ1 in H1. }
  destruct (post_login_ok castObjectId eksBlowfish rt2 d1 req2 (newObjectId rt1)
              (mkUser u (bcrypt_hashSync eksBlowfish p (genSalt rt1 10)) []) p
              Huniq1 Hr2 Hu2 Hp2) as (d2 & Happ2 & _ & _ & Hres).
  { by rw Hus lookup_insert_eq. }
  { by rw /= bcrypt_compareSync_hashSync // bool_decide_true. }
  by exists d1, d2.
Qed.

Lemma findOne_none (us : gmap ObjectId User) u :
  (∀ i x, us !! i = Some x → username x ≠ u) →
  snd <$> list_find (λ d, username d.2 = u) (map_to_list us) = None.
Proof.
  intros Hfree. destruct (snd <$> list_find _ _) as [q|] eqn:Hq; last done.
  apply findOne_found in Hq as [Hq Hname]. by destruct (Hfree _ _ Hq).
Qed.

(** A login is refused in the same words, and nothing is written, whether
    the username is unknown or the password is wrong. *)
Theorem login_failures_look_alike rt1 rt2 d req1 req2 u1 uid u p :
  usernames_unique d →
  route req1 = POST_login →
  body req1 !! "username" = Some u1 →
  (∀ i x, users d !! i = Some x → username x ≠ u1) →
  route req2 = POST_login →
  body req2 !! "username" = Some (username u) →
  body req2 !! "password" = Some p →
  users d !! uid = Some u →
  bcrypt_compareSync eksBlowfish p (password u) = false →
  app castObjectId eksBlowfish rt1 d req1
  = (d, render_login "Invalid username or password.")
  ∧ app castObjectId eksBlowfish rt2 d req2
    = (d, render_login "Invalid username or password.").
Proof.
  intros Huniq Hr1 Hu1 Hfree Hr2 Hu2 Hp2 Hu Hno. split.
  - rw /app Hr1 /=. destruct (session_load d rt1 req1) as [sid s]. run.
    by rw Hu1 /= findOne_none //= session_commit_same.
  - by eapply post_login_wrong_password.
Qed.

(** A login form without a password field, for the username of a user,
    is answered with status 500: [bcrypt.compare] rejects [undefined] and
    the handler's [catch] sends the server error.  For a username that no
    user has, the same form gets the refusal of a wrong password. *)
Theorem login_without_password rt d req u :
  route req = POST_login →
  body req !! "username" = Some u →
  body req !! "password" = None →
  app castObjectId eksBlowfish rt d req
  = (d, if bool_decide (∃ i x, users d !! i = Some x ∧ username x = u)
        then send 500 "Server Error during login process."
        else render_login "Invalid username or password.").
Proof.
  intros Hr Hu Hp. rw /app Hr /=.
  destruct (session_load d rt req) as [sid s]. run. rw Hu Hp /=.
  case_bool_decide as Hex.
  - destruct Hex as (i & x & Hx & Hux).
    destruct (list_find_elem_of (λ q : Doc User, username q.2 = u)
                (map_to_list (users d)) (i, x)) as [[k q] Hfind];
      [by apply elem_of_map_to_list|done|].
    by rw Hfind /= session_commit_same.
  - rw findOne_none /=; first by rw session_commit_same.
    intros i x Hx Hux. apply Hex. by exists i, x.
Qed.

(** ** The randomizer page *)

(** On a collection that is not empty, [GET /] renders a track of the
    collection and the number of tracks, and writes nothing. *)
Theorem root_picks_a_stored_track rt d req :
  route req = GET_root →
  tracks d ≠ ∅ →
  ∃ trk user,
    app castObjectId eksBlowfish rt d req
    = (d, render_index (Some trk) user (size (tracks d))
            (or_default (query req !! "error") ""))
    ∧ tracks d !! trk.1 = Some trk.2.
Proof.
  intros Hr Hne. rw /app Hr /=.
  assert (size (tracks d) ≠ 0) as Hsize by (by intros ?%map_size_empty_iff).
  destruct (lookup_lt_is_Some_2 (map_to_list (tracks d))
              (sampleDraw rt `mod` size (tracks d))) as [trk Htrk].
  { rw length_map_to_list. by apply Nat.mod_upper_bound. }
  assert (tracks d !! trk.1 = Some trk.2) as Hin.
  { apply elem_of_map_to_list'. by eapply list_elem_of_lookup_2. }
  destruct (session_load d rt req) as [sid [[uid|]]]; run; rw Htrk /=;
    do 2 eexists; (split; [by rw session_commit_same|done]).
Qed.

(** ** Favorites *)

Lemma elem_of_pull t x u : x ∈ favorites (pull t u) ↔ x ≠ t ∧ x ∈ favorites u.
Proof. by rw /pull /= list_elem_of_filter. Qed.

Lemma elem_of_addToSet t x u :
  x ∈ favorites (addToSet t u) ↔ x = t ∨ x ∈ favorites u.
Proof.
  rw /addToSet /=. case_bool_decide as Hin.
  - split; [by right|]. by intros [->|].
  - rw elem_of_app list_elem_of_singleton. tauto.
Qed.

Lemma pull_addToSet t u : t ∉ favorites u → pull t (addToSet t u) = u.
Proof.
  intros Hnot. destruct u as [n p favs]. rw /pull /addToSet /=.
  simpl in Hnot. rw bool_decide_false // list.filter_app.
  f_equal. rw filter_cons decide_False /=; last (intros H; by apply H).
  rw app_nil_r. clear -Hnot. induction favs as [|i favs IH]; first done.
  apply not_elem_of_cons in Hnot as [Hne Hnot].
  rw filter_cons decide_True; [by rw IH|done].
Qed.

(** Removing a favorite: [POST /unfavorite/t] of a logged-in user takes [t]
    out of the user's favorites and keeps every other id; the track is no
    longer listed, and the other users and the tracks are as before. *)
Theorem unfavorite_removes rt d req id t uid u :
  route req = POST_unfavorite id →
  resolve d (cookie req) = Some uid →
  castObjectId id = Some t →
  users d !! uid = Some u →
  ∃ d' u',
    app castObjectId eksBlowfish rt d req = (d', redirect "/favorites")
    ∧ users d' !! uid = Some u'
    ∧ (∀ x, x ∈ favorites u' ↔ x ≠ t ∧ x ∈ favorites u)
    ∧ (∀ trk, (t, trk) ∉ listed d' uid)
    ∧ (∀ i, i ≠ uid → users d' !! i = users d !! i)
    ∧ tracks d' = tracks d.
Proof.
  intros Hr Hres Hcast Hu.
  exists (set_users (alter (pull t) uid) d), (pull t u). split_and!.
  - by eapply post_unfavorite_spec.
  - by rw /= lookup_alter decide_True // Hu.
  - intros x. apply elem_of_pull.
  - intros trk. rw /listed /= lookup_alter decide_True // Hu /=.
    apply populate_not_listed. right. apply pull_removes.
  - intros i Hi. by rw /= lookup_alter decide_False.
  - done.
Qed.

(** Adding a favorite and removing it again: for a track that was not
    among the user's favorites, [POST /favorite/t] followed by
    [POST /unfavorite/t] gives back the database it started from. *)
Theorem favorite_then_unfavorite rt1 rt2 d req1 req2 id t uid :
  route req1 = POST_favorite id →
  route req2 = POST_unfavorite id →
  resolve d (cookie req1) = Some uid →
  cookie req2 = cookie req1 →
  castObjectId id = Some t →
  (∀ u, users d !! uid = Some u → t ∉ favorites u) →
  ∃ d1,
    app castObjectId eksBlowfish rt1 d req1 = (d1, redirect "/favorites")
    ∧ app castObjectId eksBlowfish rt2 d1 req2 = (d, redirect "/favorites").
Proof.
  intros Hr1 Hr2 Hres Hc Hcast Hnot.
  exists (set_users (alter (addToSet t) uid) d). split.
  - by eapply post_favorite_spec.
  - assert (resolve (set_users (alter (addToSet t) uid) d) (cookie req2)
            = Some uid) as Hres2 by (by rw Hc).
    rw (post_unfavorite_spec castObjectId eksBlowfish rt2 _ req2 id t uid
          Hr2 Hres2 Hcast).
    f_equal. rw /set_users /= alter_alter_eq.
    rw alter_id; first by destruct d.
    intros u Hu. simpl. apply pull_addToSet. by apply Hnot.
Qed.

(** The two favorites routes touch one document only: whatever the
    request, every user but the one logged in, every track and every
    session is as before. *)
Theorem favorites_routes_touch_own_document rt d req id :
  route req = POST_favorite id ∨ route req = POST_unfavorite id →
  tracks (app castObjectId eksBlowfish rt d req).1 = tracks d
  ∧ sessions (app castObjectId eksBlowfish rt d req).1 = sessions d
  ∧ ∀ i, resolve d (cookie req) ≠ Some i →
      users (app castObjectId eksBlowfish rt d req).1 !! i = users d !! i.
Proof.
  intros Hr. pose proof (session_load_resolve d rt req) as Hl. revert Hl.
  rw /app. destruct (session_load d rt req) as [sid [[uid|]]]; simpl;
    intros Hl; destruct Hr as [-> | ->]; simpl; run;
    repeat case_match; simplify_eq/=; rw session_commit_same /=;
    split_and!; try done.
  all: intros i Hi; rw lookup_alter decide_False //; congruence.
Qed.

(** ** Deleting a track *)

(** A deletion leaves the rest alone: after [POST /delete/t] succeeded,
    every other track is as before, every user is still there with the same
    username and password, and their favorites hold the ids they held
    except [t]. *)
Theorem delete_keeps_the_rest rt d req id d' :
  route req = POST_delete id →
  app castObjectId eksBlowfish rt d req = (d', redirect "/browse") →
  ∃ t, castObjectId id = Some t
    ∧ (∀ i, i ≠ t → tracks d' !! i = tracks d !! i)
    ∧ sessions d' = sessions d
    ∧ ∀ uid u, users d !! uid = Some u →
        ∃ u', users d' !! uid = Some u'
          ∧ username u' = username u ∧ password u' = password u
          ∧ ∀ x, x ∈ favorites u' ↔ x ≠ t ∧ x ∈ favorites u.
Proof.
  intros Hr Happ.
  destruct (post_delete_redirect_inv castObjectId eksBlowfish _ _ _ _ _ Hr Happ)
    as (t & uid & Hres & Hcast).
  rw (post_delete_spec castObjectId eksBlowfish rt d req id t uid Hr Hres Hcast)
    in Happ.
  injection Happ as <-. exists t. simpl. split_and!; try done.
  - intros i Hi. by rw lookup_delete_ne.
  - intros i u Hu. exists (pull t u). rw lookup_fmap Hu /=.
    split_and!; try done. intros x. apply elem_of_pull.
Qed.

(** ** Adding a track *)

(** [POST /add] of a logged-in client with a name, an [embedUrl] that
    passes the check and a fresh ObjectId. *)
Lemma post_add_ok rt d req uid n e :
  route req = POST_add →
  resolve d (cookie req) = Some uid →
  body req !! "name" = Some n → n ≠ "" →
  body req !! "embedUrl" = Some e →
  includes e "youtube.com/embed/" = true →
  tracks d !! newObjectId rt = None →
  app castObjectId eksBlowfish rt d req
  = (set_tracks
       (<[newObjectId rt :=
            mkMusicTrack n
              (or_default (body req !! "artist") "User Contributed")
              (or_default (body req !! "genre") "Unknown Palate Cleanser")
              e (Date_now rt)]>) d,
     redirect "/").
Proof.
  intros Hr (sid & Hc & Hs)%resolve_Some Hn Hne He Hinc Hid.
  rw /app /session_load Hc Hs Hr /=. run. rw Hn He /= Hinc /=.
  assert (e ≠ "") as Hee by (by intros ->).
  rw (bool_decide_false _ Hne) /= (bool_decide_false _ Hee) /=.
  assert (¬ is_Some (tracks d !! newObjectId rt)) as Hnew
    by (rw Hid; by intros [? ?]).
  by rw (bool_decide_false _ Hnew) /= session_commit_same.
Qed.

(** A valid submission is stored and browsable: for a logged-in client, a
    name that is not empty, an [embedUrl] with [youtube.com/embed/] in it
    and a fresh ObjectId, [POST /add] stores the track, with the default
    artist and genre where the form gives none, and redirects to [/];
    [GET /browse] then shows it to any client among one track more than
    before. *)
Theorem add_then_browse rt rt2 d req req2 uid n e :
  route req = POST_add →
  resolve d (cookie req) = Some uid →
  body req !! "name" = Some n → n ≠ "" →
  body req !! "embedUrl" = Some e →
  includes e "youtube.com/embed/" = true →
  tracks d !! newObjectId rt = None →
  route req2 = GET_browse →
  ∃ d' shown user,
    app castObjectId eksBlowfish rt d req = (d', redirect "/")
    ∧ tracks d' !! newObjectId rt
      = Some (mkMusicTrack n
                (or_default (body req !! "artist") "User Contributed")
                (or_default (body req !! "genre") "Unknown Palate Cleanser")
                e (Date_now rt))
    ∧ (∀ i, i ≠ newObjectId rt → tracks d' !! i = tracks d !! i)
    ∧ users d' = users d
    ∧ app castObjectId eksBlowfish rt2 d' req2 = (d', render_browse shown user)
    ∧ (newObjectId rt,
       mkMusicTrack n
         (or_default (body req !! "artist") "User Contributed")
         (or_default (body req !! "genre") "Unknown Palate Cleanser")
         e (Date_now rt)) ∈ shown
    ∧ length shown = S (size (tracks d)).
Proof.
  intros Hr Hres Hn Hne He Hinc Hid Hr2.
  set (trk := mkMusicTrack n _ _ e _).
  destruct (get_browse_spec castObjectId eksBlowfish rt2
              (set_tracks (<[newObjectId rt := trk]>) d) req2 Hr2)
    as [user Hbrowse].
  exists (set_tracks (<[newObjectId rt := trk]>) d),
    (map_to_list (<[newObjectId rt := trk]> (tracks d))), user. split_and!.
  - by eapply post_add_ok.
  - by rw /= lookup_insert_eq.
  - intros i Hi. by rw /= lookup_insert_ne.
  - done.
  - exact Hbrowse.
  - apply elem_of_map_to_list. by rw /= lookup_insert_eq.
  - by rw length_map_to_list /= map_size_insert_None.
Qed.

(** What the URL check lets through: for a logged-in client, a name and
    a fresh ObjectId, [POST /add] accepts the submission (it redirects to
    [/]) exactly when the [embedUrl] has [youtube.com/embed/] somewhere in
    it, whatever stands before it and after it. *)
Theorem add_accepts_marked_urls rt d req uid n e :
  route req = POST_add →
  resolve d (cookie req) = Some uid →
  body req !! "name" = Some n → n ≠ "" →
  body req !! "embedUrl" = Some e →
  tracks d !! newObjectId rt = None →
  (app castObjectId eksBlowfish rt d req).2 = redirect "/"
  ↔ ∃ a b, e = a +:+ "youtube.com/embed/" +:+ b.
Proof.
  intros Hr Hres Hn Hne He Hid. rw -includes_spec.
  destruct (includes e "youtube.com/embed/") eqn:Hinc.
  - by rw (post_add_ok rt d req uid n e).
  - split; last done.
    apply resolve_Some in Hres as (sid & Hc & Hs).
    rw /app /session_load Hc Hs Hr /=. run. rw Hn He /= Hinc /=.
    rw (bool_decide_false _ Hne) /=. by intros [= Huri].
Qed.

(** ** Ids that are no ObjectId *)

(** An id in the path that mongoose cannot cast is answered with status
    500 by the three routes that take one, and nothing is written: the
    cast fails before the first write. *)
Theorem malformed_id_is_server_error rt d req id uid :
  resolve d (cookie req) = Some uid →
  castObjectId id = None →
  route req = POST_delete id ∨ route req = POST_favorite id
  ∨ route req = POST_unfavorite id →
  app castObjectId eksBlowfish rt d req
  = (d, send 500
          match route req with
          | POST_delete _ => "Error processing deletion."
          | POST_favorite _ => "Error saving favorite."
          | _ => "Error removing favorite."
          end).
Proof.
  intros (sid & Hc & Hs)%resolve_Some Hcast [Hr|[Hr|Hr]];
    rw /app /session_load Hc Hs Hr /=; run;
    by rw Hcast /= session_commit_same.
Qed.

(** Any logged-in user may delete any track: for a well-formed id of a
    track of the collection, [POST /delete/:id] of whoever is logged in
    removes that track and no other. *)
Theorem delete_needs_no_owner rt d req id t uid trk :
  route req = POST_delete id →
  resolve d (cookie req) = Some uid →
  castObjectId id = Some t →
  tracks d !! t = Some trk →
  ∃ d',
    app castObjectId eksBlowfish rt d req = (d', redirect "/browse")
    ∧ tracks d' !! t = None
    ∧ S (size (tracks d')) = size (tracks d).
Proof.
  intros Hr Hres Hcast Ht. eexists. split_and!.
  - by eapply post_delete_spec.
  - apply lookup_delete_eq.
  - simpl. rw map_size_delete_Some; last by eauto.
    assert (size (tracks d) ≠ 0); last lia.
    intros Hz%map_size_empty_iff. by rw Hz lookup_empty in Ht.
Qed.

(** ** What no request does *)

(** No request deletes a user or changes a username or a stored
    password: whatever is served, a user that was there is there after it
    under the same id, with the same username and the same hash. *)
Theorem accounts_are_kept rt d req uid u :
  users d !! uid = Some u →
  ∃ u', users (app castObjectId eksBlowfish rt d req).1 !! uid = Some u'
    ∧ username u' = username u ∧ password u' = password u.
Proof.
  intros Hu.
  destruct (app_users_change castObjectId eksBlowfish rt d req)
    as [|j n p Hj _|t j|t j|t].
  - by exists u.
  - exists u. rw lookup_insert_ne; [done|congruence].
  - rw lookup_alter. case_decide as Hj; last by exists u.
    subst j. rw Hu /=. by eexists.
  - rw lookup_alter. case_decide as Hj; last by exists u.
    subst j. rw Hu /=. by eexists.
  - rw lookup_fmap Hu /=. by eexists.
Qed.

(** A request writes no session but its own: every session id other than
    the one of the request (the cookie's when the store has it, a new one
    otherwise) is bound after the request as it was before. *)
Theorem other_sessions_untouched rt d req sid :
  sid ≠ (session_load d rt req).1 →
  sessions (app castObjectId eksBlowfish rt d req).1 !! sid = sessions d !! sid.
Proof.
  rw /app. destruct (session_load d rt req) as [sid0 [[uid|]]]; simpl;
    intros Hsid; destruct (route req); simpl; run;
    repeat case_match; simplify_eq/=; rw /session_commit /=;
    repeat (case_bool_decide; simpl); simplify_eq/=;
    rw ?lookup_insert_ne ?lookup_delete_ne //.
Qed.

(** A request keeps the tracks embeddable: when every track has a name and
    an [embedUrl] with [youtube.com/embed/] in it, so it is after any
    request. *)
Lemma app_keeps_embeddable rt d req :
  (∀ i t, tracks d !! i = Some t → embeddable t) →
  ∀ i t, tracks (app castObjectId eksBlowfish rt d req).1 !! i = Some t →
    embeddable t.
Proof.
  intros Hinv i t. rw /app.
  destruct (session_load d rt req) as [sid0 [[uid|]]]; simpl;
    destruct (route req); simpl; run;
    repeat case_match; simplify_eq/=; rw ?tracks_session_commit /=;
    try apply Hinv.
  all: repeat (case_bool_decide; simplify_eq/=); try apply Hinv.
  all: try (intros [_ Ht]%lookup_delete_Some; by eapply Hinv).
  all: intros [[<- <-]|[_ Ht]]%lookup_insert_Some; last by eapply Hinv.
  all: split; simpl; first done.
  all: by match goal with
          | H : negb _ = false |- _ => apply negb_false_iff in H
          end.
Qed.

(** ** The seed tracks *)

Lemma insert_ordered_frame docs st :
  users (db (insert_ordered docs st).2) = users (db st)
  ∧ sessions (db (insert_ordered docs st).2) = sessions (db st)
  ∧ ∀ i t, tracks (db (insert_ordered docs st).2) !! i = Some t →
      tracks (db st) !! i = Some t ∨ (i, t) ∈ docs.
Proof.
  revert st. induction docs as [|doc docs IH]; intros st; simpl.
  - split_and!; try done. intros i t Ht. by left.
  - run. case_bool_decide; simpl.
    + split_and!; try done. intros i t Ht. by left.
    + destruct (IH (mkState (set_tracks (<[doc.1 := doc.2]>) (db st))
                      (sessionID st) (session st))) as (Hus & Hss & Hts).
      split_and!; try done. intros i t Ht.
      destruct (Hts i t Ht) as [Hold|Hin].
      * simpl in Hold.
        apply lookup_insert_Some in Hold as [[<- <-]|[_ Hold]]; last by left.
        right. destruct doc. apply elem_of_cons. by left.
      * right. apply elem_of_cons. by right.
Qed.

Lemma insert_ordered_fresh docs st :
  NoDup docs.*1 →
  (∀ i, i ∈ docs.*1 → tracks (db st) !! i = None) →
  insert_ordered docs st
  = (inr tt, mkState (set_tracks (λ ts, list_to_map docs ∪ ts) (db st))
               (sessionID st) (session st)).
Proof.
  revert st. induction docs as [|[k v] docs IH]; intros st Hnd Hfresh.
  - simpl. run. f_equal. destruct st as [[us ts ss] sid s]. simpl.
    by rw /set_tracks /= (left_id_L ∅ (∪)).
  - simpl in Hnd. apply list.NoDup_cons in Hnd as [Hk Hnd]. simpl. run.
    assert (¬ is_Some (tracks (db st) !! k)) as Hnew.
    { rw Hfresh; [by intros [? ?]|]. apply elem_of_cons. by left. }
    rw (bool_decide_false _ Hnew) /=.
    etrans.
    { apply IH; first done. intros i Hi. simpl.
      rw lookup_insert_ne; first by apply Hfresh, elem_of_cons; right.
      by intros ->. }
    simpl. do 2 f_equal. rw /set_tracks /=. f_equal.
    rw -insert_union_r; last by apply not_elem_of_list_to_map_1.
    by rw insert_union_l.
Qed.

Lemma seedDocuments_ids b :
  (seedDocuments b).*1 = bootObjectId b <$> seq 0 5.
Proof. done. Qed.

Lemma seedDocuments_embeddable b i t : (i, t) ∈ seedDocuments b → embeddable t.
Proof.
  rw /seedDocuments /= !elem_of_cons elem_of_nil.
  intros [?|[?|[?|[?|[?|[]]]]]]; simplify_eq; split; simpl;
    first [ discriminate | by vm_compute ].
Qed.

(** [populateTracks] comes down to the insert into the emptied
    collection: the count is 0 and the seed documents are valid. *)
Lemma start_unfold b d :
  start b d
  = db (insert_ordered (seedDocuments b)
          (mkState (set_tracks (λ _, ∅) d) "" None)).2.
Proof.
  rw /start /populateTracks /MusicTrack_insertMany.
  assert (forallb (λ d : Doc MusicTrack,
            negb (bool_decide (name d.2 = ""))
            && negb (bool_decide (embedUrl d.2 = ""))) (seedDocuments b) = true)
    as -> by (by vm_compute).
  set (docs := seedDocuments b). clearbody docs. run.
  rw map_size_empty bool_decide_true //.
  by destruct (insert_ordered docs _) as [[e|[]] st].
Qed.

Lemma start_frame b d :
  users (start b d) = users d ∧ sessions (start b d) = sessions d
  ∧ ∀ i t, tracks (start b d) !! i = Some t → (i, t) ∈ seedDocuments b.
Proof.
  rw start_unfold.
  destruct (insert_ordered_frame (seedDocuments b)
              (mkState (set_tracks (λ _, ∅) d) "" None)) as (Hus & Hss & Hts).
  split_and!; try done. intros i t Ht. by destruct (Hts i t Ht).
Qed.

(** A start replaces the tracks by seed tracks and nothing else: the users
    and the sessions are as before, no track of before the start is left,
    and every track after it is a seed track, with a name and an
    [embedUrl] that [POST /add] would accept. *)
Theorem start_leaves_only_seeds b d :
  users (start b d) = users d ∧ sessions (start b d) = sessions d
  ∧ start b d = start b (set_tracks (λ _, ∅) d)
  ∧ ∀ i t, tracks (start b d) !! i = Some t →
      (i, t) ∈ seedDocuments b ∧ embeddable t.
Proof.
  destruct (start_frame b d) as (Hus & Hss & Hts). split_and!; try done.
  intros i t Ht. split; first by apply Hts.
  eapply seedDocuments_embeddable. by apply Hts.
Qed.

(** With five different ObjectIds a start stores the five seed tracks,
    each under its id. *)
Theorem start_stores_the_seeds b d :
  NoDup (bootObjectId b <$> seq 0 5) →
  tracks (start b d) = list_to_map (seedDocuments b)
  ∧ size (tracks (start b d)) = 5
  ∧ ∀ k s, seedTracks !! k = Some s →
      tracks (start b d) !! bootObjectId b k
      = Some (mkMusicTrack s.1.1.1 s.1.1.2 s.1.2 s.2 (bootNow b k)).
Proof.
  intros Hnd.
  assert (tracks (start b d) = list_to_map (seedDocuments b)) as Hts.
  { rw start_unfold insert_ordered_fresh.
    - cbn [snd db tracks set_tracks]. by rw (right_id_L ∅ (∪)).
    - by rw seedDocuments_ids.
    - done. }
  rw Hts. split_and!; first done.
  - rw map_size_list_to_map; [done|by rw seedDocuments_ids].
  - intros k s Hk. apply elem_of_list_to_map; first by rw seedDocuments_ids.
    rw /seedDocuments.
    by apply (elem_of_lookup_imap_2
                (λ k s, (bootObjectId b k,
                         mkMusicTrack s.1.1.1 s.1.1.2 s.1.2 s.2 (bootNow b k)))).
Qed.

(** A start orphans the favorites: the users keep their [favorites], but
    a user none of whose favorites is the id of a new seed document is
    listed nothing after the start. *)
Theorem start_orphans_favorites b d uid u :
  users d !! uid = Some u →
  (∀ k, bootObjectId b k ∉ favorites u) →
  users (start b d) !! uid = Some u ∧ listed (start b d) uid = [].
Proof.
  intros Hu Hfresh. destruct (start_frame b d) as (Hus & _ & Hts).
  rw /listed Hus Hu /=. split; first done.
  induction (favorites u) as [|i favs IH] in Hfresh |- *; first done.
  simpl. destruct (tracks (start b d) !! i) as [t|] eqn:Ht; simpl.
  - exfalso. apply Hts in Ht.
    apply elem_of_lookup_imap_1 in Ht as (k & s & [= -> _] & _).
    apply (Hfresh k). apply elem_of_cons. by left.
  - apply IH. intros k Hk. apply (Hfresh k). apply elem_of_cons. by right.
Qed.

(** From a start on, every track is embeddable: whatever requests are
    served after a start, each track of the collection has a name and an
    [embedUrl] with [youtube.com/embed/] in it. *)
Theorem tracks_stay_embeddable b d reqs i t :
  tracks (serve castObjectId eksBlowfish (start b d) reqs) !! i = Some t →
  embeddable t.
Proof.
  rw /serve. revert i t.
  induction reqs as [|[rt req] reqs IH] using rev_ind; intros i t; simpl.
  - intros Ht. eapply seedDocuments_embeddable. by apply (start_frame b d).
  - rw foldl_app /=. by apply app_keeps_embeddable.
Qed.

(** ** The favorites page *)

Lemma reachable_sessions_of_users d :
  reachable castObjectId eksBlowfish d → sessions_of_users d.
Proof.
  induction 1 as [ts|rt d req _ IH|d ts _ IH].
  - by intros sid s uid Hs.
  - by apply app_sessions_of_users.
  - done.
Qed.

Lemma reachable_usernames_unique d :
  reachable castObjectId eksBlowfish d → usernames_unique d.
Proof.
  induction 1 as [ts|rt d req _ IH|d ts _ IH].
  - by intros i j u v Hi.
  - by apply app_usernames_unique.
  - done.
Qed.

(** In a database the application reaches, the favorites page of a
    logged-in client is always rendered, never the status 500: the user of
    the session exists, and the page lists their populated favorites. *)
Theorem favorites_page_is_rendered rt d req uid :
  reachable castObjectId eksBlowfish d →
  route req = GET_favorites →
  resolve d (cookie req) = Some uid →
  ∃ u, users d !! uid = Some u
    ∧ app castObjectId eksBlowfish rt d req
      = (d, render_favorites (populate (tracks d) (uid, u)) (listed d uid)).
Proof.
  intros Hreach Hr Hres.
  destruct (proj1 (resolve_Some d (cookie req) uid) Hres) as (sid & Hc & Hs).
  destruct (reachable_sessions_of_users d Hreach sid _ uid Hs eq_refl)
    as [u Hu].
  exists u. split; first done. by apply get_favorites_spec.
Qed.

(** A start is a restart of [reachable]. *)
Lemma reachable_start_again b d :
  reachable castObjectId eksBlowfish d →
  reachable castObjectId eksBlowfish (start b d).
Proof.
  intros Hreach. destruct (start_frame b d) as (Hus & Hss & _).
  assert (start b d = set_tracks (λ _, tracks (start b d)) d) as ->.
  { destruct (start b d), d. simpl in *. by subst. }
  by apply reachable_restart.
Qed.

End Coverage.

(** * The further theorems at the example databases *)

Lemma exampleDb_usernames i x :
  users exampleDb !! i = Some x → username x = "alice" ∨ username x = "bob".
Proof.
  rw /exampleDb /= !lookup_insert.
  repeat case_decide; [intros [= <-]; by left|intros [= <-]; by right|].
  by rw lookup_empty.
Qed.

Lemma exampleDb_usernames_unique : usernames_unique exampleDb.
Proof.
  intros i j u v. rw /exampleDb /= !lookup_insert.
  repeat case_decide; rw ?lookup_empty; try done; try congruence.
  all: by intros [= <-] [= <-].
Qed.

Lemma startedDb_reachable : reachable hexObjectId toyBlowfish startedDb.
Proof. apply reachable_start_again. apply (reachable_start _ _ ∅). Qed.

Lemma carolDb_reachable : reachable hexObjectId toyBlowfish carolDb.
Proof. apply reachable_request, startedDb_reachable. Qed.

Lemma reachable_invariants_example :
  favorites_are_sets carolDb ∧ usernames_unique carolDb
  ∧ sessions_of_users carolDb.
Proof.
  apply (reachable_invariants hexObjectId toyBlowfish carolDb), carolDb_reachable.
Defined.

Lemma logout_forgets_session_example :
  app hexObjectId toyBlowfish exampleRuntime exampleDb
    (alice_request POST_logout ∅)
  = (set_sessions
       (delete (session_load exampleDb exampleRuntime
                  (alice_request POST_logout ∅)).1) exampleDb,
     redirect "/login")
  ∧ resolve (app hexObjectId toyBlowfish exampleRuntime exampleDb
               (alice_request POST_logout ∅)).1 (Some "sidA") = None.
Proof.
  apply (logout_forgets_session hexObjectId toyBlowfish exampleRuntime exampleDb
           (alice_request POST_logout ∅) "sidA").
  - vm_compute; reflexivity.
  - vm_compute; reflexivity.
Defined.

Lemma protected_routes_need_login_example :
  app hexObjectId toyBlowfish exampleRuntime exampleDb
    (anonymous_request (POST_delete track1_id) ∅)
  = (exampleDb, redirect "/login").
Proof.
  apply (protected_routes_need_login hexObjectId toyBlowfish exampleRuntime
           exampleDb (anonymous_request (POST_delete track1_id) ∅)).
  - vm_compute; reflexivity.
  - vm_compute; reflexivity.
Defined.

Lemma post_add_invalid_example :
  app hexObjectId toyBlowfish exampleRuntime exampleDb
    (alice_request POST_add (add_form "Rain" "https://youtu.be/q76bMAP1Xqg"))
  = (exampleDb,
     redirect ("/?error=" +:+ encodeURIComponent
       "Invalid track details: Name is required, and URL must be a YouTube embed link.")).
Proof.
  apply (post_add_invalid hexObjectId toyBlowfish exampleRuntime exampleDb
           (alice_request POST_add
              (add_form "Rain" "https://youtu.be/q76bMAP1Xqg")) 10%N).
  - vm_compute; reflexivity.
  - vm_compute; reflexivity.
  - right. exists "https://youtu.be/q76bMAP1Xqg". split; vm_compute; reflexivity.
Defined.


Lemma register_invalid_input_example :
  app hexObjectId toyBlowfish exampleRuntime exampleDb
    (anonymous_request POST_register (register_form "carol" "12345"))
  = (exampleDb,
     render_register "Username/Password cannot be empty or password too short.").
Proof.
  apply (register_invalid_input hexObjectId toyBlowfish exampleRuntime exampleDb
           (anonymous_request POST_register (register_form "carol" "12345"))).
  - vm_compute; reflexivity.
  - right. right. exists "12345". split; [vm_compute; reflexivity|].
    vm_compute. lia.
Defined.

Lemma register_starts_session_example :
  ∃ d' user,
    app hexObjectId toyBlowfish exampleRuntime exampleDb
      (anonymous_request POST_register (register_form "carol" "password1"))
    = (d', redirect "/")
    ∧ resolve d'
        (Some (session_load exampleDb exampleRuntime
                 (anonymous_request POST_register
                    (register_form "carol" "password1"))).1)
      = Some (newObjectId exampleRuntime)
    ∧ users d' !! newObjectId exampleRuntime = Some user
    ∧ favorites user = [] ∧ listed d' (newObjectId exampleRuntime) = []
    ∧ (∀ i, i ≠ newObjectId exampleRuntime →
         users d' !! i = users exampleDb !! i)
    ∧ tracks d' = tracks exampleDb.
Proof.
  apply (register_starts_session hexObjectId toyBlowfish exampleRuntime
           exampleDb
           (anonymous_request POST_register (register_form "carol" "password1"))
           "carol" "password1").
  - vm_compute; reflexivity.
  - vm_compute; reflexivity.
  - vm_compute; reflexivity.
  - discriminate.
  - vm_compute. lia.
  - vm_compute; reflexivity.
  - intros i x [Hx|Hx]%exampleDb_usernames; rw Hx; discriminate.
Defined.

Lemma login_binds_session_example :
  ∃ d',
    app hexObjectId toyBlowfish exampleRuntime exampleDb
      (anonymous_request POST_login (register_form "alice" "password1"))
    = (d', redirect "/")
    ∧ users d' = users exampleDb ∧ tracks d' = tracks exampleDb
    ∧ resolve d'
        (Some (session_load exampleDb exampleRuntime
                 (anonymous_request POST_login
                    (register_form "alice" "password1"))).1)
      = Some 10%N.
Proof.
  apply (login_binds_session hexObjectId toyBlowfish exampleRuntime exampleDb
           (anonymous_request POST_login (register_form "alice" "password1"))
           10%N alice "password1").
  - apply exampleDb_usernames_unique.
  - vm_compute; reflexivity.
  - vm_compute; reflexivity.
  - vm_compute; reflexivity.
  - vm_compute; reflexivity.
  - vm_compute; reflexivity.
Defined.

Lemma register_then_login_example :
  ∃ d1 d2,
    app hexObjectId toyBlowfish exampleRuntime exampleDb
      (anonymous_request POST_register (register_form "carol" "password1"))
    = (d1, redirect "/")
    ∧ app hexObjectId toyBlowfish (toyRuntime 13 "sidD") d1
        (anonymous_request POST_login (register_form "carol" "password1"))
      = (d2, redirect "/")
    ∧ resolve d2
        (Some (session_load d1 (toyRuntime 13 "sidD")
                 (anonymous_request POST_login
                    (register_form "carol" "password1"))).1)
      = Some (newObjectId exampleRuntime).
Proof.
  apply (register_then_login hexObjectId toyBlowfish exampleRuntime
           (toyRuntime 13 "sidD") exampleDb
           (anonymous_request POST_register (register_form "carol" "password1"))
           (anonymous_request POST_login (register_form "carol" "password1"))
           "carol" "password1").
  - apply toyBlowfish_length.
  - vm_compute; reflexivity.
  - apply exampleDb_usernames_unique.
  - vm_compute; reflexivity.
  - vm_compute; reflexivity.
  - vm_compute; reflexivity.
  - discriminate.
  - vm_compute. lia.
  - vm_compute; reflexivity.
  - intros i x [Hx|Hx]%exampleDb_usernames; rw Hx; discriminate.
  - vm_compute; reflexivity.
  - vm_compute; reflexivity.
  - vm_compute; reflexivity.
Defined.

Lemma login_failures_look_alike_example :
  app hexObjectId toyBlowfish exampleRuntime exampleDb
    (anonymous_request POST_login (register_form "mallory" "password1"))
  = (exampleDb, render_login "Invalid username or password.")
  ∧ app hexObjectId toyBlowfish exampleRuntime exampleDb
      (anonymous_request POST_login (register_form "alice" "wrongpass"))
    = (exampleDb, render_login "Invalid username or password.").
Proof.
  apply (login_failures_look_alike hexObjectId toyBlowfish exampleRuntime
           exampleRuntime exampleDb
           (anonymous_request POST_login (register_form "mallory" "password1"))
           (anonymous_request POST_login (register_form "alice" "wrongpass"))
           "mallory" 10%N alice "wrongpass").
  - apply exampleDb_usernames_unique.
  - vm_compute; reflexivity.
  - vm_compute; reflexivity.
  - intros i x [Hx|Hx]%exampleDb_usernames; rw Hx; discriminate.
  - vm_compute; reflexivity.
  - vm_compute; reflexivity.
  - vm_compute; reflexivity.
  - vm_compute; reflexivity.
  - vm_compute; reflexivity.
Defined.

Lemma login_without_password_example :
  app hexObjectId toyBlowfish exampleRuntime exampleDb
    (anonymous_request POST_login (<["username" := "alice"]> ∅))
  = (exampleDb,
     if bool_decide (∃ i x, users exampleDb !! i = Some x ∧ username x = "alice")
     then send 500 "Server Error during login process."
     else render_login "Invalid username or password.").
Proof.
  apply (login_without_password hexObjectId toyBlowfish exampleRuntime exampleDb
           (anonymous_request POST_login (<["username" := "alice"]> ∅)) "alice").
  - vm_compute; reflexivity.
  - vm_compute; reflexivity.
  - vm_compute; reflexivity.
Defined.

Lemma root_picks_a_stored_track_example :
  ∃ trk user,
    app hexObjectId toyBlowfish exampleRuntime exampleDb
      (alice_request GET_root ∅)
    = (exampleDb,
       render_index (Some trk) user (size (tracks exampleDb))
         (or_default (query (alice_request GET_root ∅) !! "error") ""))
    ∧ tracks exampleDb !! trk.1 = Some trk.2.
Proof.
  apply (root_picks_a_stored_track hexObjectId toyBlowfish exampleRuntime
           exampleDb (alice_request GET_root ∅)).
  - vm_compute; reflexivity.
  - intros Hempty.
    assert (tracks exampleDb !! 1%N = None) as Hnone
      by (rw Hempty; apply lookup_empty).
    vm_compute in Hnone. discriminate.
Defined.

Lemma unfavorite_removes_example :
  ∃ d' u',
    app hexObjectId toyBlowfish exampleRuntime exampleDb
      (bob_request (POST_unfavorite track1_id) ∅) = (d', redirect "/favorites")
    ∧ users d' !! 11%N = Some u'
    ∧ (∀ x, x ∈ favorites u' ↔ x ≠ 1%N ∧ x ∈ favorites bob)
    ∧ (∀ trk, (1%N, trk) ∉ listed d' 11%N)
    ∧ (∀ i, i ≠ 11%N → users d' !! i = users exampleDb !! i)
    ∧ tracks d' = tracks exampleDb.
Proof.
  apply (unfavorite_removes hexObjectId toyBlowfish exampleRuntime exampleDb
           (bob_request (POST_unfavorite track1_id) ∅) track1_id 1%N 11%N bob).
  - vm_compute; reflexivity.
  - vm_compute; reflexivity.
  - vm_compute; reflexivity.
  - vm_compute; reflexivity.
Defined.

Lemma favorite_then_unfavorite_example :
  ∃ d1,
    app hexObjectId toyBlowfish exampleRuntime exampleDb
      (bob_request (POST_favorite track2_id) ∅) = (d1, redirect "/favorites")
    ∧ app hexObjectId toyBlowfish exampleRuntime d1
        (bob_request (POST_unfavorite track2_id) ∅)
      = (exampleDb, redirect "/favorites").
Proof.
  apply (favorite_then_unfavorite hexObjectId toyBlowfish exampleRuntime
           exampleRuntime exampleDb (bob_request (POST_favorite track2_id) ∅)
           (bob_request (POST_unfavorite track2_id) ∅) track2_id 2%N 11%N).
  - vm_compute; reflexivity.
  - vm_compute; reflexivity.
  - vm_compute; reflexivity.
  - vm_compute; reflexivity.
  - vm_compute; reflexivity.
  - intros u [= <-]. vm_compute. by intros [?|[]%elem_of_nil]%elem_of_cons.
Defined.

Lemma favorites_routes_touch_own_document_example :
  tracks (app hexObjectId toyBlowfish exampleRuntime exampleDb
            (bob_request (POST_favorite track2_id) ∅)).1 = tracks exampleDb
  ∧ sessions (app hexObjectId toyBlowfish exampleRuntime exampleDb
                (bob_request (POST_favorite track2_id) ∅)).1
    = sessions exampleDb
  ∧ ∀ i, resolve exampleDb (cookie (bob_request (POST_favorite track2_id) ∅))
         ≠ Some i →
      users (app hexObjectId toyBlowfish exampleRuntime exampleDb
               (bob_request (POST_favorite track2_id) ∅)).1 !! i
      = users exampleDb !! i.
Proof.
  apply (favorites_routes_touch_own_document hexObjectId toyBlowfish
           exampleRuntime exampleDb (bob_request (POST_favorite track2_id) ∅)
           track2_id).
  left. vm_compute; reflexivity.
Defined.

Lemma delete_keeps_the_rest_example :
  ∃ t, hexObjectId track1_id = Some t
    ∧ (∀ i, i ≠ t → tracks afterDelete !! i = tracks exampleDb !! i)
    ∧ sessions afterDelete = sessions exampleDb
    ∧ ∀ uid u, users exampleDb !! uid = Some u →
        ∃ u', users afterDelete !! uid = Some u'
          ∧ username u' = username u ∧ password u' = password u
          ∧ ∀ x, x ∈ favorites u' ↔ x ≠ t ∧ x ∈ favorites u.
Proof.
  apply (delete_keeps_the_rest hexObjectId toyBlowfish exampleRuntime exampleDb
           (alice_request (POST_delete track1_id) ∅) track1_id).
  - vm_compute; reflexivity.
  - vm_compute; reflexivity.
Defined.

Lemma add_then_browse_example :
  ∃ d' shown user,
    app hexObjectId toyBlowfish exampleRuntime exampleDb
      (alice_request POST_add
         (add_form "Rain" "https://www.youtube.com/embed/q76bMAP1Xqg"))
    = (d', redirect "/")
    ∧ tracks d' !! newObjectId exampleRuntime
      = Some (mkMusicTrack "Rain"
                (or_default
                   (body (alice_request POST_add
                            (add_form "Rain"
                               "https://www.youtube.com/embed/q76bMAP1Xqg"))
                      !! "artist") "User Contributed")
                (or_default
                   (body (alice_request POST_add
                            (add_form "Rain"
                               "https://www.youtube.com/embed/q76bMAP1Xqg"))
                      !! "genre") "Unknown Palate Cleanser")
                "https://www.youtube.com/embed/q76bMAP1Xqg"
                (Date_now exampleRuntime))
    ∧ (∀ i, i ≠ newObjectId exampleRuntime →
         tracks d' !! i = tracks exampleDb !! i)
    ∧ users d' = users exampleDb
    ∧ app hexObjectId toyBlowfish exampleRuntime d'
        (anonymous_request GET_browse ∅) = (d', render_browse shown user)
    ∧ (newObjectId exampleRuntime,
       mkMusicTrack "Rain"
         (or_default
            (body (alice_request POST_add
                     (add_form "Rain"
                        "https://www.youtube.com/embed/q76bMAP1Xqg"))
               !! "artist") "User Contributed")
         (or_default
            (body (alice_request POST_add
                     (add_form "Rain"
                        "https://www.youtube.com/embed/q76bMAP1Xqg"))
               !! "genre") "Unknown Palate Cleanser")
         "https://www.youtube.com/embed/q76bMAP1Xqg"
         (Date_now exampleRuntime)) ∈ shown
    ∧ length shown = S (size (tracks exampleDb)).
Proof.
  apply (add_then_browse hexObjectId toyBlowfish exampleRuntime exampleRuntime
           exampleDb
           (alice_request POST_add
              (add_form "Rain" "https://www.youtube.com/embed/q76bMAP1Xqg"))
           (anonymous_request GET_browse ∅) 10%N).
  - vm_compute; reflexivity.
  - vm_compute; reflexivity.
  - vm_compute; reflexivity.
  - discriminate.
  - vm_compute; reflexivity.
  - vm_compute; reflexivity.
  - vm_compute; reflexivity.
  - vm_compute; reflexivity.
Defined.

Lemma accounts_are_kept_example :
  ∃ u',
    users (app hexObjectId toyBlowfish exampleRuntime exampleDb
             (alice_request (POST_delete track1_id) ∅)).1 !! 11%N = Some u'
    ∧ username u' = username bob ∧ password u' = password bob.
Proof.
  apply (accounts_are_kept hexObjectId toyBlowfish exampleRuntime exampleDb
           (alice_request (POST_delete track1_id) ∅) 11%N bob).
  vm_compute; reflexivity.
Defined.

Lemma other_sessions_untouched_example :
  sessions (app hexObjectId toyBlowfish exampleRuntime exampleDb
              (alice_request POST_logout ∅)).1 !! "sidB"
  = sessions exampleDb !! "sidB".
Proof.
  apply (other_sessions_untouched hexObjectId toyBlowfish exampleRuntime
           exampleDb (alice_request POST_logout ∅) "sidB").
  vm_compute. discriminate.
Defined.

Lemma start_stores_the_seeds_example :
  tracks (start exampleBoot exampleDb) = list_to_map (seedDocuments exampleBoot)
  ∧ size (tracks (start exampleBoot exampleDb)) = 5
  ∧ ∀ k s, seedTracks !! k = Some s →
      tracks (start exampleBoot exampleDb) !! bootObjectId exampleBoot k
      = Some (mkMusicTrack s.1.1.1 s.1.1.2 s.1.2 s.2 (bootNow exampleBoot k)).
Proof.
  apply (start_stores_the_seeds exampleBoot exampleDb).
  apply (bool_decide_unpack _). by vm_compute.
Defined.

Lemma start_orphans_favorites_example :
  users (start exampleBoot exampleDb) !! 10%N = Some alice
  ∧ listed (start exampleBoot exampleDb) 10%N = [].
Proof.
  apply (start_orphans_favorites exampleBoot exampleDb 10%N alice).
  - vm_compute; reflexivity.
  - intros k [H|[H|H%elem_of_nil]%elem_of_cons]%elem_of_cons;
      [simpl in H; lia..|done].
Defined.

Lemma tracks_stay_embeddable_example :
  embeddable
    (mkMusicTrack "Rain" "User Contributed" "Unknown Palate Cleanser"
       "https://www.youtube.com/embed/q76bMAP1Xqg" 0).
Proof.
  apply (tracks_stay_embeddable hexObjectId toyBlowfish exampleBoot exampleDb
           [(exampleRuntime,
             alice_request POST_add
               (add_form "Rain" "https://www.youtube.com/embed/q76bMAP1Xqg"))]
           12%N).
  vm_compute; reflexivity.
Defined.

Lemma favorites_page_is_rendered_example :
  ∃ u, users carolDb !! 12%N = Some u
    ∧ app hexObjectId toyBlowfish exampleRuntime carolDb
        (carol_request GET_favorites ∅)
      = (carolDb,
         render_favorites (populate (tracks carolDb) (12%N, u))
           (listed carolDb 12%N)).
Proof.
  apply (favorites_page_is_rendered hexObjectId toyBlowfish exampleRuntime
           carolDb (carol_request GET_favorites ∅) 12%N).
  - apply carolDb_reachable.
  - vm_compute; reflexivity.
  - vm_compute; reflexivity.
Defined.

Lemma add_accepts_marked_urls_example :
  (app hexObjectId toyBlowfish exampleRuntime exampleDb
     (alice_request POST_add
        (add_form "Rain" "https://example.org/youtube.com/embed/?rain"))).2
  = redirect "/"
  ↔ ∃ a b,
      "https://example.org/youtube.com/embed/?rain"
      = a +:+ "youtube.com/embed/" +:+ b.
Proof.
  apply (add_accepts_marked_urls hexObjectId toyBlowfish exampleRuntime
           exampleDb
           (alice_request POST_add
              (add_form "Rain" "https://example.org/youtube.com/embed/?rain"))
           10%N "Rain").
  - vm_compute; reflexivity.
  - vm_compute; reflexivity.
  - vm_compute; reflexivity.
  - discriminate.
  - vm_compute; reflexivity.
  - vm_compute; reflexivity.
Defined.

Lemma malformed_id_is_server_error_example :
  app hexObjectId toyBlowfish exampleRuntime exampleDb
    (alice_request (POST_delete "rain") ∅)
  = (exampleDb,
     send 500
       match route (alice_request (POST_delete "rain") ∅) with
       | POST_delete _ => "Error processing deletion."
       | POST_favorite _ => "Error saving favorite."
       | _ => "Error removing favorite."
       end).
Proof.
  apply (malformed_id_is_server_error hexObjectId toyBlowfish exampleRuntime
           exampleDb (alice_request (POST_delete "rain") ∅) "rain" 10%N).
  - vm_compute; reflexivity.
  - vm_compute; reflexivity.
  - left. vm_compute; reflexivity.
Defined.

Lemma delete_needs_no_owner_example :
  ∃ d',
    app hexObjectId toyBlowfish exampleRuntime exampleDb
      (bob_request (POST_delete track2_id) ∅) = (d', redirect "/browse")
    ∧ tracks d' !! 2%N = None
    ∧ S (size (tracks d')) = size (tracks exampleDb).
Proof.
  apply (delete_needs_no_owner hexObjectId toyBlowfish exampleRuntime exampleDb
           (bob_request (POST_delete track2_id) ∅) track2_id 2%N 11%N
           (mkMusicTrack "French Jazz Cafe" "Bistro Background"
              "Lo-Fi Instrumental"
              "https://www.youtube.com/embed/m6lH_S_z-xM" 0)).
  - vm_compute; reflexivity.
  - vm_compute; reflexivity.
  - vm_compute; reflexivity.
  - vm_compute; reflexivity.
Defined.

(** * The lifetime of a session *)

Section Lifetime_properties.
Context (castObjectId : string → option ObjectId).
Context (eksBlowfish : string → string → string).

(** ** The documents that have not expired *)

Lemma unexpired_sessions now s sid :
  sessions (documents (unexpired now s)) !! sid
  = if live now (expires s) sid then sessions (documents s) !! sid else None.
Proof.
  rw /unexpired /=. destruct (live now (expires s) sid) eqn:Hl.
  - destruct (sessions (documents s) !! sid) as [x|] eqn:Hx.
    + by apply map_lookup_filter_Some.
    + apply map_lookup_filter_None. by left.
  - apply map_lookup_filter_None. right. intros x _. simpl. by rw Hl.
Qed.

Lemma unexpired_expires now s sid :
  expires (unexpired now s) !! sid
  = if live now (expires s) sid then expires s !! sid else None.
Proof.
  rw /unexpired /= /live. destruct (expires s !! sid) as [t|] eqn:Ht.
  - case_bool_decide.
    + by apply map_lookup_filter_Some.
    + apply map_lookup_filter_None. right. intros x Hx. simpl. congruence.
  - apply map_lookup_filter_None. by left.
Qed.

(** A token resolves at [now] when its document is there and its
    [expires] is after [now]. *)
Lemma resolve_at_live now s sid :
  resolve_at now s (Some sid)
  = if live now (expires s) sid then resolve (documents s) (Some sid) else None.
Proof.
  rw /resolve_at /resolve /= unexpired_sessions.
  by destruct (live now (expires s) sid).
Qed.

(** A document with a user and an [expires]: the token resolves exactly
    before [expires]. *)
Lemma resolve_at_window s sid u texp t :
  sessions (documents s) !! sid = Some (mkSession (Some u)) →
  expires s !! sid = Some texp →
  resolve_at t s (Some sid)
  = if bool_decide (t < texp)%Z then Some u else None.
Proof.
  intros Hs He. by rw resolve_at_live /live He /resolve /= Hs.
Qed.


(** The handlers see the documents that have not expired: the response
    and the documents after a request are those of [app] on them. *)
Lemma app_with_expiry_app rt s req :
  documents (app_with_expiry castObjectId eksBlowfish rt s req).1
  = (app castObjectId eksBlowfish rt
       (documents (unexpired (Date_now rt) s)) req).1
  ∧ (app_with_expiry castObjectId eksBlowfish rt s req).2
    = (app castObjectId eksBlowfish rt
         (documents (unexpired (Date_now rt) s)) req).2.
Proof.
  rw /app_with_expiry /app.
  destruct (session_load _ rt req) as [sid loaded].
  by destruct (router _ _ _ _ _ _) as [r st].
Qed.

(** ** What the routes do to [req.session] *)

(** A route other than the three of the accounts leaves the session as it
    was loaded. *)
Lemma router_keeps_session rt req d sid loaded :
  route req ≠ POST_register → route req ≠ POST_login →
  route req ≠ POST_logout →
  let st := (router castObjectId eksBlowfish (route req) rt req
               (mkState d sid (Some loaded))).2 in
  session st = Some loaded ∧ sessionID st = sid
  ∧ sessions (db st) = sessions d.
Proof.
  intros Hreg Hlog Hout. destruct loaded as [[uid|]];
    destruct (route req); try done; simpl; run;
    repeat case_match; simplify_eq/=; done.
Qed.




Lemma session_found_load d rt req sid x :
  cookie req = Some sid → sessions d !! sid = Some x →
  session_load d rt req = (sid, x) ∧ session_found d req = true.
Proof.
  intros Hc Hx. rw /session_load /session_found Hc Hx. split; first done.
  by apply bool_decide_eq_true.
Qed.

(** ** When a session is written *)


(** A request that carries a session of a user and is none of the three
    of the accounts leaves it bound to the user and moves [expires] to a
    [maxAge] after the request. *)
Lemma session_touch_spec rt s req sid u :
  cookie req = Some sid →
  resolve_at (Date_now rt) s (Some sid) = Some u →
  route req ≠ POST_register → route req ≠ POST_login →
  route req ≠ POST_logout →
  sessions (documents (app_with_expiry castObjectId eksBlowfish rt s req).1)
    !! sid = Some (mkSession (Some u))
  ∧ expires (app_with_expiry castObjectId eksBlowfish rt s req).1 !! sid
    = Some (Date_now rt + maxAge)%Z.
Proof.
  intros Hc Hres Hreg Hlog Hout. rw /resolve_at in Hres.
  apply resolve_Some in Hres as (sid' & [= <-] & Hs).
  rw /app_with_expiry.
  destruct (session_found_load _ rt req sid _ Hc Hs) as [-> ->].
  pose proof (router_keeps_session rt req
                (documents (unexpired (Date_now rt) s)) sid
                (mkSession (Some u)) Hreg Hlog Hout) as (Hst & Hid & Hss).
  destruct (router _ _ _ _ _ _) as [r st]. simpl in *.
  rw /session_commit /session_expiry Hst Hid bool_decide_true //=.
  by rw Hss Hs lookup_insert_eq.
Qed.


(** ** The 24 hours of a session *)


(** ** More on the lifetime *)

(** A session in use does not expire: a request that carries a valid
    token and is neither a registration, a login nor a logout leaves the
    token valid for the same user until [maxAge] after the request,
    whatever the store and however old the session. *)
Theorem session_kept_alive rt s req sid u :
  cookie req = Some sid →
  resolve_at (Date_now rt) s (Some sid) = Some u →
  route req ≠ POST_register → route req ≠ POST_login →
  route req ≠ POST_logout →
  ∀ t, resolve_at t (app_with_expiry castObjectId eksBlowfish rt s req).1
         (Some sid)
       = if bool_decide (t < Date_now rt + maxAge)%Z then Some u else None.
Proof.
  intros Hc Hres Hreg Hlog Hout t.
  destruct (session_touch_spec rt s req sid u) as [Hs He]; [done..|].
  by apply resolve_at_window.
Qed.

(** A token whose [expires] has passed is the token of nobody: a route
    behind [isAuthenticated] sends its client to [/login], and the users
    and the tracks are as before. *)
Theorem expired_session_must_login rt s req sid texp :
  cookie req = Some sid →
  expires s !! sid = Some texp →
  (texp ≤ Date_now rt)%Z →
  protected (route req) = true →
  (app_with_expiry castObjectId eksBlowfish rt s req).2 = redirect "/login"
  ∧ users (documents (app_with_expiry castObjectId eksBlowfish rt s req).1)
    = users (documents s)
  ∧ tracks (documents (app_with_expiry castObjectId eksBlowfish rt s req).1)
    = tracks (documents s).
Proof.
  intros Hc He Hexp Hp.
  assert (sessions (documents (unexpired (Date_now rt) s)) !! sid = None)
    as Hgone.
  { rw unexpired_sessions /live He bool_decide_false //. lia. }
  rw /app_with_expiry /session_load Hc Hgone.
  destruct (route req); try done; simpl; run;
    by rw /session_commit /= bool_decide_true.
Qed.

End Lifetime_properties.

(** * The lifetime of a session at the example store *)



(** The session made at time 0 and used after 23 hours is used again
    after 30 hours. *)
Lemma session_kept_alive_example :
  resolve_at (hours 30) carolStore23 (Some "sidC") = Some 12%N
  ∧ ∀ t, resolve_at t
           (app_with_expiry hexObjectId toyBlowfish
              (at_time (hours 30) exampleRuntime) carolStore23
              (newcomer GET_favorites ∅)).1 (Some "sidC")
         = if bool_decide (t < hours 30 + maxAge)%Z then Some 12%N else None.
Proof.
  split; first by (vm_compute; reflexivity).
  apply (session_kept_alive hexObjectId toyBlowfish
           (at_time (hours 30) exampleRuntime) carolStore23
           (newcomer GET_favorites ∅) "sidC" 12%N).
  - reflexivity.
  - vm_compute; reflexivity.
  - discriminate.
  - discriminate.
  - discriminate.
Defined.

(** carol's session, made at time 0 and not used since, at the end of its
    24 hours. *)
Lemma expired_session_must_login_example :
  (app_with_expiry hexObjectId toyBlowfish
     (at_time (hours 24) exampleRuntime) carolStore
     (newcomer GET_favorites ∅)).2 = redirect "/login"
  ∧ users (documents
             (app_with_expiry hexObjectId toyBlowfish
                (at_time (hours 24) exampleRuntime) carolStore
                (newcomer GET_favorites ∅)).1)
    = users (documents carolStore)
  ∧ tracks (documents
              (app_with_expiry hexObjectId toyBlowfish
                 (at_time (hours 24) exampleRuntime) carolStore
                 (newcomer GET_favorites ∅)).1)
    = tracks (documents carolStore).
Proof.
  apply (expired_session_must_login hexObjectId toyBlowfish
           (at_time (hours 24) exampleRuntime) carolStore
           (newcomer GET_favorites ∅) "sidC" (hours 24)).
  - reflexivity.
  - vm_compute; reflexivity.
  - vm_compute. discriminate.
  - reflexivity.
Defined.
